(** * Serenity/JS core: [Artifact] envelopes and the [CallAnApi] ability

    A shallow embedding of
      - packages/core/src/model/Artifact.ts
      - packages/rest/src/screenplay/abilities/CallAnApi.ts
    together with the properties their specification states about them.

    JavaScript strings are sequences of UTF-16 code units; regular
    expression literals are translated to a small regular-expression syntax
    whose matcher is executable and proved equivalent to the usual
    language semantics. *)

From Stdlib Require Import NArith List Bool Lia.
From stdpp Require Import base option list countable gmap strings.
Import ListNotations.

Local Open Scope N_scope.

(** ** JavaScript strings and regular expressions *)
Module JS.

(** A string value: its UTF-16 code units. *)
Abbreviation code_unit := N (only parsing).
Abbreviation jsstring := (list N) (only parsing).

(** The code units of a literal written in ASCII. *)
Definition js (s : string) : jsstring :=
  map (fun a => N.of_nat (Ascii.nat_of_ascii a)) (String.list_ascii_of_string s).

(** [a === b] on strings. *)
Definition strict_eq (a b : jsstring) : bool := bool_decide (a = b).

(** [Array.prototype.join]. *)
Fixpoint join (sep : jsstring) (xs : list jsstring) : jsstring :=
  match xs with
  | [] => []
  | [x] => x
  | x :: rest => x ++ sep ++ join sep rest
  end.

(** [Array.prototype.find]. *)
Fixpoint find {A} (p : A -> bool) (xs : list A) : option A :=
  match xs with
  | [] => None
  | x :: rest => if p x then Some x else find p rest
  end.

(** Regular expressions without captures, flags or assertions; a
    character class is a list of inclusive code-unit ranges, possibly
    negated. *)
Inductive RegExp : Type :=
| Never
| Empty
| Class (ranges : list (N * N)) (negated : bool)
| Seq (r1 r2 : RegExp)
| Alt (r1 r2 : RegExp)
| Star (r : RegExp).

Definition in_ranges (c : N) (ranges : list (N * N)) : bool :=
  existsb (fun '(lo, hi) => (lo <=? c) && (c <=? hi)) ranges.

Definition in_class (ranges : list (N * N)) (negated : bool) (c : N) : bool :=
  xorb negated (in_ranges c ranges).

(** A literal character, a literal word, [r{n}]. *)
Definition Chr (c : N) : RegExp := Class [(c, c)] false.

Fixpoint Lit (w : jsstring) : RegExp :=
  match w with
  | [] => Empty
  | c :: w' => Seq (Chr c) (Lit w')
  end.

Fixpoint Repeat (n : nat) (r : RegExp) : RegExp :=
  match n with
  | O => Empty
  | S n' => Seq r (Repeat n' r)
  end.

(** [.] without the [s] flag: everything but the four line terminators
    LF, CR, U+2028 and U+2029. *)
Definition Dot : RegExp := Class [(10, 10); (13, 13); (8232, 8233)] true.

(** Any code unit at all. *)
Definition AnyUnit : RegExp := Class [] true.

Fixpoint nullable (r : RegExp) : bool :=
  match r with
  | Never => false
  | Empty => true
  | Class _ _ => false
  | Seq r1 r2 => nullable r1 && nullable r2
  | Alt r1 r2 => nullable r1 || nullable r2
  | Star _ => true
  end.

(** Brzozowski derivative. *)
Fixpoint deriv (c : N) (r : RegExp) : RegExp :=
  match r with
  | Never => Never
  | Empty => Never
  | Class rs neg => if in_class rs neg c then Empty else Never
  | Seq r1 r2 =>
      if nullable r1
      then Alt (Seq (deriv c r1) r2) (deriv c r2)
      else Seq (deriv c r1) r2
  | Alt r1 r2 => Alt (deriv c r1) (deriv c r2)
  | Star r1 => Seq (deriv c r1) (Star r1)
  end.

(** Does the whole of [s] belong to [r]? *)
Fixpoint matches (r : RegExp) (s : jsstring) : bool :=
  match s with
  | [] => nullable r
  | c :: s' => matches (deriv c r) s'
  end.

(** A regular-expression literal: a body and whether it is anchored by
    a leading [^] and by a trailing [$] (no [m] flag, so these are the
    start and the end of the input). *)
Record Pattern : Type := mkPattern {
  anchored_start : bool;
  body : RegExp;
  anchored_end : bool
}.

(** [RegExp.prototype.test] for a literal without the [g] and [y]
    flags: some substring, placed as the anchors demand, matches. *)
Definition test (p : Pattern) (s : jsstring) : bool :=
  matches
    (Seq (if anchored_start p then Empty else Star AnyUnit)
         (Seq (body p)
              (if anchored_end p then Empty else Star AnyUnit)))
    s.

(** The language of a regular expression. *)
Inductive lang : RegExp -> jsstring -> Prop :=
| lang_empty : lang Empty []
| lang_class rs neg c : in_class rs neg c = true -> lang (Class rs neg) [c]
| lang_seq r1 r2 s1 s2 : lang r1 s1 -> lang r2 s2 -> lang (Seq r1 r2) (s1 ++ s2)
| lang_alt_l r1 r2 s : lang r1 s -> lang (Alt r1 r2) s
| lang_alt_r r1 r2 s : lang r2 s -> lang (Alt r1 r2) s
| lang_star_nil r : lang (Star r) []
| lang_star_app r s1 s2 : lang r s1 -> lang (Star r) s2 -> lang (Star r) (s1 ++ s2).

Create HintDb regexp.
#[export] Hint Constructors lang : regexp.

End JS.

(** ** packages/core/src/model/Artifact.ts *)
Module Artifact.
Import JS.

(** Modelled from the spec: the error kinds a call can throw.  The class
    [LogicError] is declared in the core's errors module, which is not
    among the sources read here; it carries the message it is built with.
    [EnsureFailure] is the validation error: what tiny-types' [ensure]
    raises when a predicate fails on the value called [subject], with the
    predicate's description kept as [expectation]. *)
Inductive Thrown : Type :=
| LogicError (message : jsstring)
| EnsureFailure (subject expectation : jsstring).

(** A call either returns a value or throws. *)
Inductive Completion (A : Type) : Type :=
| Returns (value : A)
| Throws (error : Thrown).
Arguments Returns {A} value.
Arguments Throws {A} error.

(** [ArtifactType]: a concrete subclass of [Artifact].  The subclasses add
    no fields and no constructor of their own, so a class is known by the
    [name] of its constructor function. *)
Record ArtifactType : Type := mkArtifactType { name : jsstring }.

(** An instance: the class that built it ([this.constructor]) and its one
    field. *)
Record t : Type := mkArtifact {
  constructor : ArtifactType;
  base64EncodedValue : jsstring
}.

(** [SerialisedArtifact]. *)
Module Serialised.
Record t : Type := mk { type : jsstring; base64EncodedValue : jsstring }.
End Serialised.
Abbreviation SerialisedArtifact := Serialised.t.

(** tiny-types' [Predicate.to(description, check)]. *)
Record Predicate : Type := mkPredicate {
  description : jsstring;
  check : jsstring -> bool
}.

(** [A-Za-z0-9+/] *)
Definition base64_alphabet : list (N * N) :=
  [(65, 90); (97, 122); (48, 57); (43, 43); (47, 47)].

Definition B64 : RegExp := Class base64_alphabet false.

(** [([A-Za-z0-9+/]{4})] *)
Definition quartet : RegExp := Repeat 4 B64.

(** [([A-Za-z0-9+/]{4}|[A-Za-z0-9+/]{3}=|[A-Za-z0-9+/]{2}==)] *)
Definition last_group : RegExp :=
  Alt (Repeat 4 B64)
      (Alt (Seq (Repeat 3 B64) (Chr 61))
           (Seq (Repeat 2 B64) (Seq (Chr 61) (Chr 61)))).

(** [/^([A-Za-z0-9+/]{4})*([A-Za-z0-9+/]{4}|[A-Za-z0-9+/]{3}=|[A-Za-z0-9+/]{2}==)$/] *)
Definition regex : Pattern :=
  mkPattern true (Seq (Star quartet) last_group) true.

Definition looksLikeBase64Encoded : Predicate :=
  mkPredicate (js "be base64-encoded") (fun value => test regex value).

(** [isDefined()] and [isString()] hold of every string value. *)
Definition isDefined : Predicate := mkPredicate (js "be defined") (fun _ => true).
Definition isString : Predicate := mkPredicate (js "be a string") (fun _ => true).

(** [ensure] of tiny-types, an external library: the predicates are tried
    in order and the first that fails is reported against [subject]. *)
Fixpoint ensure (subject : jsstring) (value : jsstring) (predicates : list Predicate)
  : Completion jsstring :=
  match predicates with
  | [] => Returns value
  | p :: rest =>
      if check p value then ensure subject value rest
      else Throws (EnsureFailure subject (description p))
  end.

(** [new V(base64EncodedValue)] for a concrete class [V]: the inherited
    constructor of [Artifact]. *)
Definition new (V : ArtifactType) (base64EncodedValue : jsstring) : Completion t :=
  match ensure (name V) base64EncodedValue
               [isDefined; isString; looksLikeBase64Encoded] with
  | Throws e => Throws e
  | Returns _ => Returns (mkArtifact V base64EncodedValue)
  end.

Definition toJSON (a : t) : SerialisedArtifact :=
  Serialised.mk (name (constructor a)) (base64EncodedValue a).

(** The module object [artifacts] (import * as artifacts from
    './artifacts') is not part of the sources at hand: it is a parameter,
    given as its enumerable own properties in [Object.keys] order, export
    name first, exported class second. *)
Definition ModuleObject : Type := list (jsstring * ArtifactType).

(** [Object.keys(artifacts)] *)
Definition keys (artifacts : ModuleObject) : list jsstring := map fst artifacts.

(** [artifacts[key]]; [None] is [undefined]. *)
Fixpoint get (artifacts : ModuleObject) (key : jsstring) : option ArtifactType :=
  match artifacts with
  | [] => None
  | (k, V) :: rest => if strict_eq k key then Some V else get rest key
  end.

(** A property key that is [undefined] is read as the string "undefined". *)
Definition property_key (k : option jsstring) : jsstring :=
  match k with
  | Some k => k
  | None => js "undefined"
  end.

Definition ofType (artifacts : ModuleObject) (name : jsstring) : option ArtifactType :=
  let types := keys artifacts in
  let type := find (fun constructorName => strict_eq constructorName name) types in
  get artifacts (property_key type).

Definition spaces (n : nat) : jsstring := repeat 32 n.

(** The template literal of [fromJSON], line breaks and indentation
    included. *)
Definition unknown_type_message (type : jsstring) (recognisedTypes : list jsstring)
  : jsstring :=
  [10] ++ spaces 16 ++ js "Couldn't de-serialise artifact of an unknown type."
  ++ [10] ++ spaces 16 ++ type ++ js " is not one of the recognised types: "
  ++ join (js ", ") recognisedTypes
  ++ [10] ++ spaces 11.

Definition fromJSON (artifacts : ModuleObject) (o : SerialisedArtifact) : Completion t :=
  let recognisedTypes := keys artifacts in
  let type := ofType artifacts (Serialised.type o) in
  match type with
  | None => Throws (LogicError (unknown_type_message (Serialised.type o) recognisedTypes))
  | Some type => new type (Serialised.base64EncodedValue o)
  end.

(** *** Base64 as the specification words it

    Quartet grouping with legal padding: the string splits into groups of
    four characters of the base64 alphabet, the last of which may end in
    one or two [=] signs.  As in RFC 4648 the encoding of zero bytes, the
    empty string, has no group at all. *)
Definition is_base64_char (c : N) : bool :=
  ((65 <=? c) && (c <=? 90)) || ((97 <=? c) && (c <=? 122))
  || ((48 <=? c) && (c <=? 57)) || (c =? 43) || (c =? 47).

Definition is_pad (c : N) : bool := c =? 61.

Definition final_quartet (a b c d : N) : bool :=
  is_base64_char a && is_base64_char b
  && ((is_base64_char c && (is_base64_char d || is_pad d)) || (is_pad c && is_pad d)).

Fixpoint well_formed_base64 (s : jsstring) : bool :=
  match s with
  | [] => true
  | [a; b; c; d] => final_quartet a b c d
  | a :: b :: c :: d :: rest =>
      is_base64_char a && is_base64_char b && is_base64_char c && is_base64_char d
      && well_formed_base64 rest
  | _ => false
  end.

(** *** The constructor on any value

    [base64EncodedValue] is declared a [string], which nothing enforces
    when the code runs: a value read from JSON may be missing or be no
    string.  Here the three guards of the constructor run on any
    JavaScript value: [undefined], [null], a string, or any other value,
    kept with the string [String(value)] makes of it (what [regex.test]
    would look at). *)
Inductive JSValue : Type :=
| JSUndefined
| JSNull
| JSString (s : jsstring)
| JSOther (string_form : jsstring).

Definition ToString (v : JSValue) : jsstring :=
  match v with
  | JSUndefined => js "undefined"
  | JSNull => js "null"
  | JSString s => s
  | JSOther string_form => string_form
  end.

Record ValuePredicate : Type := mkValuePredicate {
  expectation_of : jsstring;
  holds_of : JSValue -> bool
}.

(** [isDefined()]: neither [null] nor [undefined]. *)
Definition isDefined_of_value : ValuePredicate :=
  mkValuePredicate (description isDefined)
    (fun v => match v with JSUndefined | JSNull => false | _ => true end).

(** [isString()]: [typeof value === 'string']. *)
Definition isString_of_value : ValuePredicate :=
  mkValuePredicate (description isString)
    (fun v => match v with JSString _ => true | _ => false end).

(** [looksLikeBase64Encoded()]: [regex.test(value)], which reads the value
    as a string. *)
Definition looksLikeBase64Encoded_of_value : ValuePredicate :=
  mkValuePredicate (description looksLikeBase64Encoded)
    (fun v => test regex (ToString v)).

Fixpoint ensure_value (subject : jsstring) (value : JSValue)
    (predicates : list ValuePredicate) : Completion JSValue :=
  match predicates with
  | [] => Returns value
  | p :: rest =>
      if holds_of p value then ensure_value subject value rest
      else Throws (EnsureFailure subject (expectation_of p))
  end.

(** [new V(value)]: a value that passed the guards is a string, and
    [ToString] leaves a string as it is. *)
Definition new_of_value (V : ArtifactType) (value : JSValue) : Completion t :=
  match ensure_value (name V) value
          [isDefined_of_value; isString_of_value; looksLikeBase64Encoded_of_value] with
  | Throws e => Throws e
  | Returns checked => Returns (mkArtifact V (ToString checked))
  end.

(** [Artifact.fromJSON({ type, base64EncodedValue: value })] *)
Definition fromJSON_of_value (artifacts : ModuleObject) (type : jsstring)
    (value : JSValue) : Completion t :=
  let recognisedTypes := keys artifacts in
  match ofType artifacts type with
  | None => Throws (LogicError (unknown_type_message type recognisedTypes))
  | Some type => new_of_value type value
  end.

(** A module object to run the definitions on: two classes exported under
    their own names. *)
Definition Photo : ArtifactType := mkArtifactType (js "Photo").
Definition TextData : ArtifactType := mkArtifactType (js "TextData").

Definition sample_artifacts : ModuleObject :=
  [(js "Photo", Photo); (js "TextData", TextData)].

End Artifact.

(** ** packages/rest/src/screenplay/abilities/CallAnApi.ts *)
Module CallAnApi.
Import JS.

(** [AxiosRequestConfig], with the fields the ability sets or reads; an
    absent field is [None], absent headers are the empty map. *)
Record AxiosRequestConfig : Type := mkConfig {
  url : option jsstring;
  method : option jsstring;
  baseURL : option jsstring;
  timeout : option N;
  headers : gmap (list N) (list N)
}.

(** [AxiosResponse] *)
Record AxiosResponse : Type := mkResponse {
  status : N;
  statusText : jsstring;
  data : jsstring
}.

(** What the transport rejects with: a [message], whether the value is an
    instance of [TypeError], and the [response] field of an [AxiosError]
    when there is one. *)
Record Rejection : Type := mkRejection {
  message : jsstring;
  instanceof_TypeError : bool;
  response : option AxiosResponse
}.

(** Modelled from the spec: the two error kinds of @serenity-js/core the
    ability rejects or throws with, logic error and
    test-environment-compromised; their classes are not among the sources
    read here.  Each carries its message and, when given one, its cause. *)
Inductive RuntimeError : Type :=
| LogicError (message : jsstring) (cause : option Rejection)
| TestCompromisedError (message : jsstring) (cause : option Rejection).

(** A settled promise. *)
Inductive Promise (A E : Type) : Type :=
| Fulfilled (value : A)
| Rejected (reason : E).
Arguments Fulfilled {A E} value.
Arguments Rejected {A E} reason.

(** A synchronous call either returns or throws. *)
Inductive Completion (A : Type) : Type :=
| Returns (value : A)
| Throws (error : RuntimeError).
Arguments Returns {A} value.
Arguments Throws {A} error.

(** An [AxiosInstance] is a mutable object: its [defaults], and what its
    transport answers to an effective request. *)
Record AxiosInstance : Type := mkInstance {
  defaults : AxiosRequestConfig;
  adapter : AxiosRequestConfig -> Promise AxiosResponse Rejection
}.

(** References to [AxiosInstance] objects. *)
Abbreviation ref := nat (only parsing).

(** The world outside the ability: the store of axios instances, the next
    unused reference, the library's own [axios.defaults] and transport, and
    the effective requests handed to a transport so far, oldest first. *)
Record World : Type := mkWorld {
  instances : ref -> AxiosInstance;
  fresh : ref;
  axios_defaults : AxiosRequestConfig;
  axios_adapter : AxiosRequestConfig -> Promise AxiosResponse Rejection;
  sent : list (ref * AxiosRequestConfig)
}.

Definition or_else {A} (x y : option A) : option A :=
  match x with
  | Some _ => x
  | None => y
  end.

(** Modelled from the spec: the transport is axios, an external library,
    and a call is issued "merging config over the transport's defaults
    (override semantics: explicit config fields win)". *)
Definition mergeConfig (defaults config : AxiosRequestConfig) : AxiosRequestConfig :=
  mkConfig
    (or_else (url config) (url defaults))
    (or_else (method config) (method defaults))
    (or_else (baseURL config) (baseURL defaults))
    (or_else (timeout config) (timeout defaults))
    (headers config ∪ headers defaults).

Definition store (r : ref) (i : AxiosInstance) (m : ref -> AxiosInstance)
  : ref -> AxiosInstance :=
  fun r' => if Nat.eqb r' r then i else m r'.

(** Modelled from the spec: [axios.create(config)] builds a new transport
    preconfigured with [config], here merged over the library's own
    defaults. *)
Definition axios_create (config : AxiosRequestConfig) (w : World) : ref * World :=
  let instance := mkInstance (mergeConfig (axios_defaults w) config) (axios_adapter w) in
  (fresh w,
   mkWorld (store (fresh w) instance (instances w)) (S (fresh w))
           (axios_defaults w) (axios_adapter w) (sent w)).

(** Modelled from the spec: [instance.request(config)] is one transport
    call, with [config] merged over the instance's defaults, that settles
    as the transport answers. *)
Definition axios_request (r : ref) (config : AxiosRequestConfig) (w : World)
  : Promise AxiosResponse Rejection * World :=
  let instance := instances w r in
  let effective := mergeConfig (defaults instance) config in
  (adapter instance effective,
   mkWorld (instances w) (fresh w) (axios_defaults w) (axios_adapter w)
           (sent w ++ [(r, effective)])).

(** The ability: its two private fields. *)
Record t : Type := mkCallAnApi {
  axiosInstance : ref;
  lastResponse : option AxiosResponse
}.

(** [new CallAnApi(axiosInstance)] *)
Definition new (axiosInstance : ref) : t := mkCallAnApi axiosInstance None.

(** [CallAnApi.at(baseURL)] *)
Definition at_ (baseURL : jsstring) (w : World) : t * World :=
  let (instance, w') :=
    axios_create
      (mkConfig None None (Some baseURL) (Some 2000)
                {[ js "Accept" := js "application/json,application/xml" ]})
      w in
  (new instance, w').

(** [CallAnApi.using(axiosInstance)] *)
Definition using_ (axiosInstance : ref) (w : World) : t * World :=
  (new axiosInstance, w).

(** [fn] stands for what the caller's function does to the object it is
    given; what it returns is dropped. *)
Definition modifyConfig (fn : AxiosRequestConfig -> AxiosRequestConfig)
    (this : t) (w : World) : World :=
  let instance := instances w (axiosInstance this) in
  mkWorld
    (store (axiosInstance this)
           (mkInstance (fn (defaults instance)) (adapter instance))
           (instances w))
    (fresh w) (axios_defaults w) (axios_adapter w) (sent w).

(** [/timeout.*exceeded/] and [/Network Error/] *)
Definition timeout_exceeded : Pattern :=
  mkPattern false
    (Seq (Lit (js "timeout")) (Seq (Star Dot) (Lit (js "exceeded"))))
    false.

Definition network_error : Pattern :=
  mkPattern false (Lit (js "Network Error")) false.

Definition captureResponseOf (promisedResponse : Promise AxiosResponse Rejection)
    (this : t) : Promise AxiosResponse RuntimeError * t :=
  match promisedResponse with
  | Fulfilled fulfilled =>
      (Fulfilled fulfilled, mkCallAnApi (axiosInstance this) (Some fulfilled))
  | Rejected rejected =>
      if test timeout_exceeded (message rejected) then
        (Rejected (TestCompromisedError (js "The request has timed out") (Some rejected)),
         this)
      else if test network_error (message rejected) then
        (Rejected (TestCompromisedError (js "A network error has occurred") (Some rejected)),
         this)
      else if instanceof_TypeError rejected then
        (Rejected (LogicError (js "Looks like there was an issue with Axios configuration")
                              (Some rejected)),
         this)
      else
        match response rejected with
        | None =>
            (Rejected (TestCompromisedError (js "The API call has failed") (Some rejected)),
             this)
        | Some response =>
            (Fulfilled response, mkCallAnApi (axiosInstance this) (Some response))
        end
  end.

Definition request (config : AxiosRequestConfig) (this : t) (w : World)
  : Promise AxiosResponse RuntimeError * t * World :=
  let (promisedResponse, w') := axios_request (axiosInstance this) config w in
  let (settled, this') := captureResponseOf promisedResponse this in
  (settled, this', w').

Definition mapLastResponse {T} (fn : AxiosResponse -> T) (this : t) (w : World)
  : Completion T * t * World :=
  match lastResponse this with
  | None =>
      (Throws (LogicError
                 (js "Make sure to perform a HTTP API call before checking on the response")
                 None),
       this, w)
  | Some response => (Returns (fn response), this, w)
  end.

(** [{}] and [cfg => cfg.headers[name] = value] *)
Definition empty_config : AxiosRequestConfig := mkConfig None None None None ∅.

Definition set_header (name value : jsstring) (cfg : AxiosRequestConfig)
  : AxiosRequestConfig :=
  mkConfig (url cfg) (method cfg) (baseURL cfg) (timeout cfg)
           (<[ name := value ]> (headers cfg)).

(** The request a transport is handed for [config], and what it answers. *)
Definition effective_request (this : t) (w : World) (config : AxiosRequestConfig)
  : AxiosRequestConfig :=
  mergeConfig (defaults (instances w (axiosInstance this))) config.

Definition transport_answer (this : t) (w : World) (config : AxiosRequestConfig)
  : Promise AxiosResponse Rejection :=
  adapter (instances w (axiosInstance this)) (effective_request this w config).

(** The line terminators [.] leaves out. *)
Definition is_line_terminator (c : N) : bool :=
  (c =? 10) || (c =? 13) || (c =? 8232) || (c =? 8233).

(** A world to run the definitions on: every transport answers [answer]
    and has no defaults. *)
Definition sample_world (answer : Promise AxiosResponse Rejection) : World :=
  mkWorld (fun _ => mkInstance empty_config (fun _ => answer))
          O empty_config (fun _ => answer) [].

(** Rejections and responses to run the definitions on. *)
Definition timed_out : Rejection :=
  mkRejection (js "timeout of 2000ms exceeded") false None.

Definition unreachable : Rejection :=
  mkRejection (js "Network Error") false None.

Definition misconfigured : Rejection :=
  mkRejection (js "Cannot read property 'replace' of undefined") true None.

Definition refused : Rejection :=
  mkRejection (js "connect ECONNREFUSED 127.0.0.1:80") false None.

Definition not_found : AxiosResponse := mkResponse 404 (js "Not Found") [].

Definition failed_with_404 : Rejection :=
  mkRejection (js "Request failed with status code 404") false (Some not_found).

Definition gateway_timeout : AxiosResponse := mkResponse 504 (js "Gateway Timeout") [].

Definition timed_out_with_504 : Rejection :=
  mkRejection (js "timeout of 2000ms exceeded") false (Some gateway_timeout).

(** Requests awaited one after the other, each before the next is
    issued: the settled promises in order, the ability and the world
    after the last. *)
Fixpoint request_each (configs : list AxiosRequestConfig) (this : t) (w : World)
  : list (Promise AxiosResponse RuntimeError) * t * World :=
  match configs with
  | [] => ([], this, w)
  | config :: rest =>
      let '(settled, this', w') := request config this w in
      let '(outcomes, this'', w'') := request_each rest this' w' in
      (settled :: outcomes, this'', w'')
  end.

(** The response of the last promise that resolved, or [before] when none
    did. *)
Definition last_resolved (outcomes : list (Promise AxiosResponse RuntimeError))
    (before : option AxiosResponse) : option AxiosResponse :=
  fold_left
    (fun slot settled =>
       match settled with
       | Fulfilled response => Some response
       | Rejected _ => slot
       end)
    outcomes before.

(** A world whose transports answer a request with a [url] by the
    response [found] and time out on any other. *)
Definition found : AxiosResponse := mkResponse 200 (js "OK") (js "{}").

Definition routed_world : World :=
  let route := fun config : AxiosRequestConfig =>
                 match url config with
                 | Some _ => Fulfilled found
                 | None => Rejected timed_out
                 end in
  mkWorld (fun _ => mkInstance empty_config route) O empty_config route [].

Definition get_ (path : jsstring) : AxiosRequestConfig :=
  mkConfig (Some path) (Some (js "get")) None None ∅.

End CallAnApi.

(** ** packages/core/src/model/ScenarioParameters.ts *)
Module ScenarioParameters.
Import JS.
Export Artifact(Thrown, LogicError, EnsureFailure, Completion, Returns, Throws).

(** A place that may hold [undefined] or [null] instead of a value. *)
Inductive Maybe (A : Type) : Type :=
| Undefined
| Null
| Defined (value : A).
Arguments Undefined {A}.
Arguments Null {A}.
Arguments Defined {A} value.

(** [ensure(subject, value, isDefined())] of tiny-types, an external
    library: [isDefined()] holds of everything but [null] and
    [undefined], and [ensure] hands back the value it checked. *)
Definition ensure_isDefined {A} (subject : jsstring) (value : Maybe A) : Completion A :=
  match value with
  | Defined a => Returns a
  | Undefined | Null => Throws (EnsureFailure subject (js "be defined"))
  end.

(** Is a string-typed place falsy?  [undefined], [null] and the empty
    string are. *)
Definition falsy (v : Maybe jsstring) : bool :=
  match v with
  | Defined (_ :: _) => false
  | _ => true
  end.

(** The serialised form, read as the casts of [fromJSON] take it: two
    strings and an object of strings, each of which may be missing. *)
Module Serialised.
Record t : Type := mk {
  name : Maybe jsstring;
  description : Maybe jsstring;
  values : Maybe (list (jsstring * jsstring))
}.
End Serialised.

Section Collaborators.

(** [Name] and [Description] are classes of this package whose files are
    not among the sources read here: they are parameters, with their
    [fromJSON] functions, which return an instance or throw. *)
Variables Name Description : Type.
Variable Name_fromJSON : Maybe jsstring -> Completion Name.
Variable Description_fromJSON : jsstring -> Completion Description.

(** What the [description] field can hold: nothing, a string that [&&]
    passed on, or a [Description]. *)
Definition DescriptionField : Type := Maybe (jsstring + Description).

(** An instance.  Its [name] and [values] passed [isDefined()], so they
    are there. *)
Record t : Type := mk {
  name : Name;
  description : DescriptionField;
  values : list (jsstring * jsstring)
}.

(** [new ScenarioParameters(name, description, values)] *)
Definition new (name : Maybe Name) (description : DescriptionField)
    (values : Maybe (list (jsstring * jsstring))) : Completion t :=
  match ensure_isDefined (js "name") name with
  | Throws e => Throws e
  | Returns name =>
      match ensure_isDefined (js "values") values with
      | Throws e => Throws e
      | Returns values => Returns (mk name description values)
      end
  end.

(** [o.description && Description.fromJSON(o.description as string)] *)
Definition description_of (description : Maybe jsstring) : Completion DescriptionField :=
  match description with
  | Undefined => Returns Undefined
  | Null => Returns Null
  | Defined [] => Returns (Defined (inl []))
  | Defined s =>
      match Description_fromJSON s with
      | Throws e => Throws e
      | Returns d => Returns (Defined (inr d))
      end
  end.

(** The arguments are evaluated from left to right, then the constructor
    runs. *)
Definition fromJSON (o : Serialised.t) : Completion t :=
  match Name_fromJSON (Serialised.name o) with
  | Throws e => Throws e
  | Returns name =>
      match description_of (Serialised.description o) with
      | Throws e => Throws e
      | Returns description => new (Defined name) description (Serialised.values o)
      end
  end.

End Collaborators.

Arguments mk {Name Description} name description values.
Arguments name {Name Description} _.
Arguments description {Name Description} _.
Arguments values {Name Description} _.
Arguments new {Name Description} name description values.
Arguments description_of {Description} Description_fromJSON description.
Arguments fromJSON {Name Description} Name_fromJSON Description_fromJSON o.

(** Collaborators to run the definitions on: a name must be a string, a
    description must not be blank. *)
Definition sample_Name_fromJSON (v : Maybe jsstring) : Completion jsstring :=
  match v with
  | Defined s => Returns s
  | Undefined | Null => Throws (EnsureFailure (js "Name") (js "be defined"))
  end.

Definition sample_Description_fromJSON (s : jsstring) : Completion jsstring :=
  if strict_eq s (js " ") then Throws (EnsureFailure (js "Description") (js "not be blank"))
  else Returns s.

End ScenarioParameters.

(** * Properties *)

(** ** The matcher against the language of a regular expression *)
Module RegExpFacts.
Import JS.

Lemma single_range a c : (a <=? c) && (c <=? a) = (c =? a).
Proof.
  destruct (N.leb_spec a c), (N.leb_spec c a), (N.eqb_spec c a);
    simpl; try reflexivity; lia.
Qed.

Lemma lang_never_inv s : lang Never s -> False.
Proof. inversion 1. Qed.

Lemma lang_empty_inv s : lang Empty s -> s = [].
Proof. inversion 1; reflexivity. Qed.

Lemma lang_class_inv rs neg s :
  lang (Class rs neg) s -> exists c, s = [c] /\ in_class rs neg c = true.
Proof. inversion 1; subst; eauto. Qed.

Lemma lang_seq_inv r1 r2 s :
  lang (Seq r1 r2) s -> exists s1 s2, s = s1 ++ s2 /\ lang r1 s1 /\ lang r2 s2.
Proof. inversion 1; subst; eauto 6. Qed.

Lemma lang_alt_inv r1 r2 s : lang (Alt r1 r2) s -> lang r1 s \/ lang r2 s.
Proof. inversion 1; subst; auto. Qed.

Lemma lang_seq_cons r1 r2 c s1 s2 :
  lang r1 (c :: s1) -> lang r2 s2 -> lang (Seq r1 r2) (c :: s1 ++ s2).
Proof. intros H1 H2. apply (lang_seq _ _ (c :: s1) s2); assumption. Qed.

Lemma lang_seq_nil_l r1 r2 s : lang r1 [] -> lang r2 s -> lang (Seq r1 r2) s.
Proof. intros H1 H2. apply (lang_seq _ _ [] s); assumption. Qed.

Lemma nullable_lang r : nullable r = true <-> lang r [].
Proof.
  induction r; simpl; split; intros H;
    try discriminate; eauto with regexp.
  - destruct (lang_never_inv _ H).
  - apply lang_class_inv in H as (c & E & _). discriminate.
  - apply andb_true_iff in H as [H1 H2].
    apply lang_seq_nil_l; [apply IHr1 | apply IHr2]; assumption.
  - apply lang_seq_inv in H as (s1 & s2 & E & H1 & H2).
    symmetry in E. apply app_eq_nil in E as [-> ->].
    apply andb_true_iff; split; [apply IHr1 | apply IHr2]; assumption.
  - apply orb_true_iff in H as [H | H];
      [apply lang_alt_l, IHr1 | apply lang_alt_r, IHr2]; assumption.
  - apply orb_true_iff.
    apply lang_alt_inv in H as [H | H]; [left; apply IHr1 | right; apply IHr2]; assumption.
Qed.

Lemma lang_star_cons r c s :
  lang (Star r) (c :: s) ->
  exists s1 s2, s = s1 ++ s2 /\ lang r (c :: s1) /\ lang (Star r) s2.
Proof.
  intros H.
  remember (Star r) as r' eqn:Er.
  remember (c :: s) as t eqn:Et.
  revert s Et.
  induction H as [| | | | | |r0 s1 s2 H1 _ H2 IH2]; intros s0 Et; try discriminate.
  injection Er as ->.
  destruct s1 as [|c1 s1]; simpl in Et.
  - apply IH2; auto.
  - injection Et as -> <-.
    exists s1, s2; auto.
Qed.

Lemma deriv_lang r : forall c s, lang (deriv c r) s <-> lang r (c :: s).
Proof.
  induction r as [| |rs neg|r1 IHr1 r2 IHr2|r1 IHr1 r2 IHr2|r IHr];
    intros c s; simpl.
  - split; intros H; destruct (lang_never_inv _ H).
  - split; intros H; [destruct (lang_never_inv _ H)|].
    apply lang_empty_inv in H. discriminate.
  - split; intros H.
    + destruct (in_class rs neg c) eqn:E; [|destruct (lang_never_inv _ H)].
      apply lang_empty_inv in H as ->. constructor; assumption.
    + apply lang_class_inv in H as (c' & E & Hc).
      injection E as <- ->. rewrite Hc. constructor.
  - split; intros H.
    + assert (Hseq : lang (Seq (deriv c r1) r2) s -> lang (Seq r1 r2) (c :: s)).
      { intros H'. apply lang_seq_inv in H' as (s1 & s2 & -> & H1 & H2).
        apply lang_seq_cons; [apply IHr1|]; assumption. }
      destruct (nullable r1) eqn:E; [|auto].
      apply lang_alt_inv in H as [H | H]; [auto|].
      apply lang_seq_nil_l; [apply nullable_lang | apply IHr2]; assumption.
    + apply lang_seq_inv in H as (s1 & s2 & E & H1 & H2).
      destruct s1 as [|c1 s1]; simpl in E.
      * subst s2.
        apply nullable_lang in H1. rewrite H1.
        apply lang_alt_r, IHr2; assumption.
      * injection E as <- ->.
        assert (lang (Seq (deriv c r1) r2) (s1 ++ s2))
          by (constructor; [apply IHr1|]; assumption).
        destruct (nullable r1); [apply lang_alt_l|]; assumption.
  - split; intros H; apply lang_alt_inv in H as [H | H].
    + apply lang_alt_l, IHr1; assumption.
    + apply lang_alt_r, IHr2; assumption.
    + apply lang_alt_l, IHr1; assumption.
    + apply lang_alt_r, IHr2; assumption.
  - split; intros H.
    + apply lang_seq_inv in H as (s1 & s2 & -> & H1 & H2).
      change (c :: s1 ++ s2) with ((c :: s1) ++ s2).
      constructor; [apply IHr|]; assumption.
    + apply lang_star_cons in H as (s1 & s2 & -> & H1 & H2).
      constructor; [apply IHr|]; assumption.
Qed.

(** The matcher decides the language. *)
Lemma matches_lang s : forall r, matches r s = true <-> lang r s.
Proof.
  induction s as [|c s IH]; intros r; simpl.
  - apply nullable_lang.
  - rewrite IH. apply deriv_lang.
Qed.

Lemma lang_seq_empty_l r s : lang (Seq Empty r) s <-> lang r s.
Proof.
  split; intros H.
  - apply lang_seq_inv in H as (s1 & s2 & -> & H1 & H2).
    apply lang_empty_inv in H1 as ->. assumption.
  - apply lang_seq_nil_l; [constructor | assumption].
Qed.

Lemma lang_seq_empty_r r s : lang (Seq r Empty) s <-> lang r s.
Proof.
  split; intros H.
  - apply lang_seq_inv in H as (s1 & s2 & -> & H1 & H2).
    apply lang_empty_inv in H2 as ->. rewrite app_nil_r. assumption.
  - rewrite <- (app_nil_r s). constructor; [assumption | constructor].
Qed.

(** Induction on the iterations of a star. *)
Lemma lang_star_rect r (P : jsstring -> Prop) :
  P [] ->
  (forall s1 s2, lang r s1 -> lang (Star r) s2 -> P s2 -> P (s1 ++ s2)) ->
  forall s, lang (Star r) s -> P s.
Proof.
  intros Hnil Happ s H.
  remember (Star r) as r' eqn:Er.
  induction H as [| | | | | |r0 s1 s2 H1 _ H2 IH2]; try discriminate.
  - assumption.
  - injection Er as ->. apply Happ; auto.
Qed.

Lemma lang_star_anything s : lang (Star AnyUnit) s.
Proof.
  induction s as [|c s IH]; [constructor|].
  change (c :: s) with ([c] ++ s).
  constructor; [constructor; reflexivity | assumption].
Qed.

Lemma lang_star_class rs neg s :
  lang (Star (Class rs neg)) s <-> Forall (fun c => in_class rs neg c = true) s.
Proof.
  split.
  - apply lang_star_rect; [constructor|].
    intros s1 s2 H1 _ IH.
    apply lang_class_inv in H1 as (c & -> & Hc).
    constructor; assumption.
  - induction 1 as [|c s' Hc _ IH]; [constructor|].
    change (c :: s') with ([c] ++ s').
    constructor; [constructor|]; assumption.
Qed.

Lemma lang_Lit w s : lang (Lit w) s <-> s = w.
Proof.
  revert s; induction w as [|c w IH]; intros s; simpl.
  - split; [apply lang_empty_inv | intros ->; constructor].
  - split.
    + intros H. apply lang_seq_inv in H as (s1 & s2 & -> & H1 & H2).
      apply lang_class_inv in H1 as (c' & -> & Hc).
      apply IH in H2 as ->.
      unfold in_class, in_ranges in Hc; simpl in Hc.
      rewrite orb_false_r in Hc. apply andb_true_iff in Hc as [Hlo Hhi].
      apply N.leb_le in Hlo, Hhi.
      assert (c' = c) as -> by lia. reflexivity.
    + intros ->. change (c :: w) with ([c] ++ w).
      constructor; [|apply IH; reflexivity].
      constructor. unfold in_class, in_ranges; simpl.
      rewrite N.leb_refl. reflexivity.
Qed.

(** A literal anchored at both ends accepts the strings of its body. *)
Lemma test_anchored r s : test (mkPattern true r true) s = true <-> lang r s.
Proof.
  unfold test; simpl.
  rewrite matches_lang, lang_seq_empty_l, lang_seq_empty_r. reflexivity.
Qed.

(** A literal without anchors accepts the strings with a substring in its
    body. *)
Lemma test_unanchored r s :
  test (mkPattern false r false) s = true <->
  exists before m after, s = before ++ m ++ after /\ lang r m.
Proof.
  unfold test; simpl. rewrite matches_lang. split.
  - intros H.
    apply lang_seq_inv in H as (before & s' & -> & _ & H).
    apply lang_seq_inv in H as (m & after & -> & H & _).
    exists before, m, after; auto.
  - intros (before & m & after & -> & H).
    constructor; [apply lang_star_anything|].
    constructor; [assumption | apply lang_star_anything].
Qed.

End RegExpFacts.

(** ** Artifact: validation, envelopes and the registry *)
Module ArtifactSpec.
Import JS RegExpFacts Artifact.

Ltac invert_lang :=
  repeat match goal with
    | H : lang (Seq _ _) _ |- _ => apply lang_seq_inv in H as (? & ? & -> & ? & ?)
    | H : lang (Class _ _) _ |- _ => apply lang_class_inv in H as (? & -> & ?)
    | H : lang Empty _ |- _ => apply lang_empty_inv in H as ->
    | H : lang (Alt _ _) _ |- _ => apply lang_alt_inv in H as [? | ?]
    end.

Lemma in_base64_alphabet c : in_class base64_alphabet false c = is_base64_char c.
Proof.
  unfold in_class, in_ranges, is_base64_char; simpl.
  rewrite !single_range, orb_false_r, !orb_assoc. reflexivity.
Qed.

Lemma in_pad c : in_class [(61, 61)] false c = is_pad c.
Proof.
  unfold in_class, in_ranges, is_pad; simpl.
  rewrite single_range, orb_false_r. reflexivity.
Qed.

Lemma lang_unit rs neg c r s :
  in_class rs neg c = true -> lang r s -> lang (Seq (Class rs neg) r) (c :: s).
Proof.
  intros Hc Hs. change (c :: s) with ([c] ++ s).
  constructor; [constructor|]; assumption.
Qed.

Lemma lang_B64_cons c r s :
  is_base64_char c = true -> lang r s -> lang (Seq B64 r) (c :: s).
Proof. intros Hc. apply lang_unit. rewrite in_base64_alphabet. assumption. Qed.

Lemma lang_pad_cons c r s :
  is_pad c = true -> lang r s -> lang (Seq (Chr 61) r) (c :: s).
Proof. intros Hc. apply lang_unit. rewrite in_pad. assumption. Qed.

Lemma lang_quartet s :
  lang quartet s <->
  exists a b c d, s = [a; b; c; d] /\
    is_base64_char a = true /\ is_base64_char b = true /\
    is_base64_char c = true /\ is_base64_char d = true.
Proof.
  unfold quartet; cbn [Repeat]. split.
  - intros H. unfold B64 in H. invert_lang.
    rewrite in_base64_alphabet in *.
    simpl. eauto 10.
  - intros (a & b & c & d & -> & Ha & Hb & Hc & Hd).
    repeat (apply lang_B64_cons; [assumption|]). constructor.
Qed.

Lemma lang_last_group s :
  lang last_group s <->
  exists a b c d, s = [a; b; c; d] /\ final_quartet a b c d = true.
Proof.
  unfold last_group, final_quartet; cbn [Repeat]. split.
  - intros H. unfold B64, Chr in H. invert_lang;
      rewrite ?in_base64_alphabet, ?in_pad in *; simpl;
      do 4 eexists; (split; [reflexivity|]);
      repeat match goal with H : _ = true |- _ => rewrite H; clear H end;
      rewrite ?orb_true_r; reflexivity.
  - intros (a & b & c & d & -> & H).
    apply andb_true_iff in H as [H Hcd].
    apply andb_true_iff in H as [Ha Hb].
    apply orb_true_iff in Hcd as [Hcd | Hcd];
      apply andb_true_iff in Hcd as [Hc Hd].
    + apply orb_true_iff in Hd as [Hd | Hd].
      * apply lang_alt_l.
        repeat (apply lang_B64_cons; [assumption|]). constructor.
      * apply lang_alt_r, lang_alt_l.
        change [a; b; c; d] with ([a; b; c] ++ [d]).
        constructor.
        -- repeat (apply lang_B64_cons; [assumption|]). constructor.
        -- constructor. rewrite in_pad. assumption.
    + apply lang_alt_r, lang_alt_r.
      change [a; b; c; d] with ([a; b] ++ [c; d]).
      constructor.
      * repeat (apply lang_B64_cons; [assumption|]). constructor.
      * apply lang_pad_cons; [assumption|].
        constructor. rewrite in_pad. assumption.
Qed.

Lemma well_formed_base64_cons4 a b c d e rest :
  well_formed_base64 (a :: b :: c :: d :: e :: rest) =
  is_base64_char a && is_base64_char b && is_base64_char c && is_base64_char d
  && well_formed_base64 (e :: rest).
Proof. reflexivity. Qed.

Lemma lang_groups_well_formed s1 :
  lang (Star quartet) s1 ->
  forall s2, lang last_group s2 ->
    s1 ++ s2 <> [] /\ well_formed_base64 (s1 ++ s2) = true.
Proof.
  intros H. pattern s1. revert s1 H. apply lang_star_rect.
  - intros s2 H2. apply lang_last_group in H2 as (a & b & c & d & -> & H).
    split; [discriminate | exact H].
  - intros q s1 Hq _ IH s2 H2.
    apply lang_quartet in Hq as (a & b & c & d & -> & Ha & Hb & Hc & Hd).
    destruct (IH s2 H2) as [Hne Hwf].
    split; [discriminate|].
    simpl app. destruct (s1 ++ s2) as [|e rest]; [congruence|].
    rewrite well_formed_base64_cons4, Ha, Hb, Hc, Hd, Hwf. reflexivity.
Qed.

Lemma well_formed_lang_groups n :
  forall s, (length s <= n)%nat -> s <> [] -> well_formed_base64 s = true ->
    lang (Seq (Star quartet) last_group) s.
Proof.
  induction n as [|n IH]; intros s Hlen Hne Hwf.
  - destruct s; [congruence | simpl in Hlen; lia].
  - destruct s as [|a [|b [|c [|d [|e rest]]]]]; try congruence; try discriminate.
    + apply lang_seq_nil_l; [constructor|].
      apply lang_last_group. exists a, b, c, d. split; [reflexivity | exact Hwf].
    + rewrite well_formed_base64_cons4 in Hwf.
      apply andb_true_iff in Hwf as [Hwf Hrest].
      apply andb_true_iff in Hwf as [Hwf Hd].
      apply andb_true_iff in Hwf as [Hwf Hc].
      apply andb_true_iff in Hwf as [Ha Hb].
      assert (Hr : lang (Seq (Star quartet) last_group) (e :: rest)).
      { apply IH; [simpl in *; lia | discriminate | assumption]. }
      apply lang_seq_inv in Hr as (s1 & s2 & E & H1 & H2).
      rewrite E.
      change (a :: b :: c :: d :: s1 ++ s2) with (([a; b; c; d] ++ s1) ++ s2).
      constructor; [|assumption].
      constructor; [|assumption].
      apply lang_quartet. exists a, b, c, d. auto.
Qed.

(** The validation regex accepts exactly the non-empty strings that are
    well-formed base64. *)
Lemma looksLikeBase64Encoded_spec s :
  check looksLikeBase64Encoded s = true <-> s <> [] /\ well_formed_base64 s = true.
Proof.
  simpl. unfold regex. rewrite test_anchored.
  split.
  - intros H. apply lang_seq_inv in H as (s1 & s2 & -> & H1 & H2).
    apply lang_groups_well_formed; assumption.
  - intros [Hne Hwf]. apply (well_formed_lang_groups (length s)); auto.
Qed.

Lemma strict_eq_true a b : strict_eq a b = true <-> a = b.
Proof. unfold strict_eq. apply bool_decide_eq_true. Qed.

Lemma get_None artifacts key :
  ~ In key (keys artifacts) -> get artifacts key = None.
Proof.
  induction artifacts as [|[k V] rest IH]; simpl; intros Hnot; [reflexivity|].
  destruct (strict_eq k key) eqn:E.
  - apply strict_eq_true in E. tauto.
  - apply IH. tauto.
Qed.

Lemma get_Some artifacts key V :
  get artifacts key = Some V -> In (key, V) artifacts.
Proof.
  induction artifacts as [|[k V'] rest IH]; simpl; [discriminate|].
  destruct (strict_eq k key) eqn:E.
  - apply strict_eq_true in E. intros [= ->]. left. congruence.
  - intros H. right. auto.
Qed.

Lemma get_key artifacts key :
  In key (keys artifacts) -> exists V, get artifacts key = Some V.
Proof.
  induction artifacts as [|[k V'] rest IH]; simpl; [tauto|].
  intros H. destruct (strict_eq k key) eqn:E; [eauto|].
  destruct H as [H | H]; [|auto].
  apply strict_eq_true in H. congruence.
Qed.

Lemma find_key_None artifacts key :
  ~ In key (keys artifacts) ->
  find (fun constructorName => strict_eq constructorName key) (keys artifacts) = None.
Proof.
  induction artifacts as [|[k V] rest IH]; simpl; intros Hnot; [reflexivity|].
  destruct (strict_eq k key) eqn:E.
  - apply strict_eq_true in E. tauto.
  - apply IH. tauto.
Qed.

Lemma find_key_Some artifacts key :
  In key (keys artifacts) ->
  find (fun constructorName => strict_eq constructorName key) (keys artifacts) = Some key.
Proof.
  induction artifacts as [|[k V] rest IH]; simpl; [tauto|].
  intros H. destruct (strict_eq k key) eqn:E.
  - apply strict_eq_true in E. congruence.
  - destruct H as [H | H]; [|auto].
    apply strict_eq_true in H. congruence.
Qed.

(** Without an export called [undefined], [ofType] is the property read. *)
Lemma ofType_get artifacts name :
  get artifacts (js "undefined") = None ->
  ofType artifacts name = get artifacts name.
Proof.
  intros Hundef. unfold ofType.
  destruct (List.in_dec (List.list_eq_dec N.eq_dec) name (keys artifacts)) as [Hin | Hnot].
  - rewrite find_key_Some by assumption. reflexivity.
  - rewrite find_key_None by assumption. simpl.
    rewrite Hundef. symmetry. apply get_None. assumption.
Qed.

Lemma ofType_registered artifacts V :
  get artifacts (name V) = Some V -> ofType artifacts (name V) = Some V.
Proof.
  intros H. unfold ofType.
  rewrite find_key_Some; [exact H|].
  apply get_Some in H. apply (in_map fst) in H. exact H.
Qed.

Lemma new_checks V s :
  new V s =
  if check looksLikeBase64Encoded s then Returns (mkArtifact V s)
  else Throws (EnsureFailure (name V) (js "be base64-encoded")).
Proof.
  unfold new. cbn [ensure isDefined isString check].
  destruct (check looksLikeBase64Encoded s); reflexivity.
Qed.

Lemma join_mentions sep (xs : list jsstring) k :
  In k xs -> exists before after, join sep xs = before ++ k ++ after.
Proof.
  induction xs as [|x rest IH]; [intros []|].
  intros [-> | Hin].
  - destruct rest as [|y rest].
    + exists [], []. simpl. rewrite app_nil_r. reflexivity.
    + exists [], (sep ++ join sep (y :: rest)). reflexivity.
  - destruct (IH Hin) as (before & after & E).
    destruct rest as [|y rest]; [destruct Hin|].
    exists (x ++ sep ++ before), after.
    change (join sep (x :: y :: rest)) with (x ++ sep ++ join sep (y :: rest)).
    rewrite E, <- !app_assoc. reflexivity.
Qed.

(** C9.  Constructing any artifact variant with the empty string throws
    the validation error, although the empty string is the base64 encoding
    of zero bytes: every string the validation regex accepts ends in a
    group of four characters, the first two of them of the alphabet. *)
Theorem new_empty_string_throws :
  forall V : ArtifactType,
    well_formed_base64 [] = true /\
    new V [] = Throws (EnsureFailure (name V) (js "be base64-encoded")) /\
    (forall s, check looksLikeBase64Encoded s = true ->
       exists groups a b c d,
         s = groups ++ [a; b; c; d] /\ final_quartet a b c d = true).
Proof.
  intros V. split; [reflexivity|]. split; [reflexivity|].
  intros s H. simpl in H. unfold regex in H.
  apply test_anchored in H.
  apply lang_seq_inv in H as (groups & g & -> & _ & Hg).
  apply lang_last_group in Hg as (a & b & c & d & -> & Hf).
  exists groups, a, b, c, d. auto.
Qed.

(** C4, as stated, fails at the empty string: it is well-formed base64
    (no quartet, no padding), and the constructor throws. *)
Lemma new_rejects_well_formed_empty_string :
  well_formed_base64 [] = true /\
  new Photo [] = Throws (EnsureFailure (js "Photo") (js "be base64-encoded")) /\
  fromJSON sample_artifacts (Serialised.mk (js "Photo") [])
  = Throws (EnsureFailure (js "Photo") (js "be base64-encoded")).
Proof. repeat split; vm_compute; reflexivity. Qed.

(** C4, amended.  Constructing an artifact variant, directly or through
    [fromJSON], succeeds if and only if the supplied string is non-empty
    well-formed base64 (one or more quartets, legal padding in the last);
    for every other string the constructor throws the validation error, so
    a constructed instance always holds the validated string. *)
Theorem new_succeeds_iff_nonempty_well_formed :
  forall (V : ArtifactType) (s : jsstring),
    ((exists a, new V s = Returns a) <-> s <> [] /\ well_formed_base64 s = true) /\
    (forall a, new V s = Returns a ->
       a = mkArtifact V s /\ base64EncodedValue a <> [] /\
       well_formed_base64 (base64EncodedValue a) = true) /\
    (~ (s <> [] /\ well_formed_base64 s = true) ->
       new V s = Throws (EnsureFailure (name V) (js "be base64-encoded"))) /\
    (forall artifacts type,
       ofType artifacts type = Some V ->
       fromJSON artifacts (Serialised.mk type s) = new V s).
Proof.
  intros V s.
  assert (Hfrom : forall artifacts type,
             ofType artifacts type = Some V ->
             fromJSON artifacts (Serialised.mk type s) = new V s).
  { intros artifacts type H. unfold fromJSON. simpl. rewrite H. reflexivity. }
  revert Hfrom. rewrite new_checks.
  pose proof (looksLikeBase64Encoded_spec s) as Hspec.
  destruct (check looksLikeBase64Encoded s) eqn:E; intros Hfrom.
  - assert (Hs : s <> [] /\ well_formed_base64 s = true) by (apply Hspec; reflexivity).
    split; [split; [intros _; exact Hs | intros _; eauto]|].
    split; [intros a [= <-]; simpl; tauto|].
    split; [tauto | exact Hfrom].
  - assert (Hs : ~ (s <> [] /\ well_formed_base64 s = true)).
    { intros H. apply Hspec in H. discriminate. }
    split; [split; [intros [a [=]] | tauto]|].
    split; [intros a [=]|].
    split; [reflexivity | exact Hfrom].
Qed.

(** C3, as stated, fails at the empty string: it is valid base64, yet
    [new Photo('')] throws, so there is no artifact whose envelope
    [fromJSON] could read back, and the envelope with that value is
    refused as well. *)
Lemma roundtrip_has_no_artifact_for_empty_string :
  get sample_artifacts (name Photo) = Some Photo /\
  well_formed_base64 [] = true /\
  new Photo [] = Throws (EnsureFailure (js "Photo") (js "be base64-encoded")) /\
  fromJSON sample_artifacts (Serialised.mk (name Photo) [])
  = Throws (EnsureFailure (js "Photo") (js "be base64-encoded")).
Proof. repeat split; vm_compute; reflexivity. Qed.

(** C3, amended.  For every variant [V] registered under its own name and
    every non-empty valid base64 string [s], [new V(s)] builds an
    artifact and [Artifact.fromJSON(new V(s).toJSON())] returns an
    artifact of the same variant holding the same [base64EncodedValue]:
    the very artifact. *)
Theorem fromJSON_toJSON_roundtrip_of_nonempty_base64 :
  forall (artifacts : ModuleObject) (V : ArtifactType) (s : jsstring),
    get artifacts (name V) = Some V ->
    s <> [] ->
    well_formed_base64 s = true ->
    exists a : Artifact.t,
      new V s = Returns a /\
      fromJSON artifacts (toJSON a) = Returns a /\
      constructor a = V /\ base64EncodedValue a = s /\
      Serialised.type (toJSON a) = name V.
Proof.
  intros artifacts V s Hreg Hne Hwf.
  assert (E : check looksLikeBase64Encoded s = true)
    by (apply looksLikeBase64Encoded_spec; auto).
  exists (mkArtifact V s).
  unfold fromJSON, toJSON; simpl.
  rewrite (ofType_registered _ _ Hreg), !new_checks, E.
  auto.
Qed.

Lemma fromJSON_toJSON_roundtrip_of_nonempty_base64_witness :
  exists a : Artifact.t,
    new TextData (js "SGVsbG8=") = Returns a /\
    fromJSON sample_artifacts (toJSON a) = Returns a /\
    constructor a = TextData /\ base64EncodedValue a = js "SGVsbG8=" /\
    Serialised.type (toJSON a) = name TextData.
Proof.
  apply (fromJSON_toJSON_roundtrip_of_nonempty_base64 sample_artifacts TextData
           (js "SGVsbG8=")).
  - vm_compute. reflexivity.
  - discriminate.
  - vm_compute. reflexivity.
Defined.

(** C5.  For every envelope whose [type] is not the name of a registered
    variant, [Artifact.fromJSON] throws a [LogicError] whose message names
    that type and lists every registered name (the module object has no
    export called [undefined]). *)
Theorem fromJSON_unknown_type :
  forall (artifacts : ModuleObject) (o : SerialisedArtifact),
    get artifacts (js "undefined") = None ->
    ~ In (Serialised.type o) (keys artifacts) ->
    fromJSON artifacts o
    = Throws (LogicError (unknown_type_message (Serialised.type o) (keys artifacts))) /\
    (exists before after,
       unknown_type_message (Serialised.type o) (keys artifacts)
       = before ++ Serialised.type o ++ js " is not one of the recognised types: "
         ++ join (js ", ") (keys artifacts) ++ after) /\
    (forall k, In k (keys artifacts) ->
       exists before after,
         unknown_type_message (Serialised.type o) (keys artifacts)
         = before ++ k ++ after).
Proof.
  intros artifacts o Hundef Hnot.
  split; [|split].
  - unfold fromJSON.
    rewrite (ofType_get _ _ Hundef), (get_None _ _ Hnot). reflexivity.
  - unfold unknown_type_message.
    exists ([10] ++ spaces 16
            ++ js "Couldn't de-serialise artifact of an unknown type."
            ++ [10] ++ spaces 16),
           ([10] ++ spaces 11).
    rewrite <- !app_assoc. reflexivity.
  - intros k Hk.
    destruct (join_mentions (js ", ") _ _ Hk) as (before & after & E).
    unfold unknown_type_message. rewrite E.
    exists ([10] ++ spaces 16
            ++ js "Couldn't de-serialise artifact of an unknown type."
            ++ [10] ++ spaces 16 ++ Serialised.type o
            ++ js " is not one of the recognised types: " ++ before),
           (after ++ [10] ++ spaces 11).
    rewrite <- !app_assoc. reflexivity.
Qed.

Lemma fromJSON_unknown_type_witness :
  fromJSON sample_artifacts (Serialised.mk (js "Video") (js "SGVsbG8="))
  = Throws (LogicError (unknown_type_message (js "Video") [js "Photo"; js "TextData"])) /\
  join (js ", ") (keys sample_artifacts) = js "Photo, TextData".
Proof.
  split; [|vm_compute; reflexivity].
  refine (proj1 (fromJSON_unknown_type sample_artifacts
                   (Serialised.mk (js "Video") (js "SGVsbG8=")) _ _)).
  - vm_compute. reflexivity.
  - vm_compute. intros H. decompose [or] H; try discriminate; assumption.
Defined.

(** C10.  For every string [name], [Artifact.ofType(name)] returns the
    class registered under exactly that name (code unit for code unit, so
    with the same case) and [undefined] when there is none; it is a total
    function and throws nothing (the module object has no export called
    [undefined]). *)
Theorem ofType_lookup :
  forall (artifacts : ModuleObject) (name : jsstring),
    get artifacts (js "undefined") = None ->
    (forall V, get artifacts name = Some V ->
       ofType artifacts name = Some V /\ In (name, V) artifacts) /\
    (In name (keys artifacts) -> exists V, ofType artifacts name = Some V) /\
    (~ In name (keys artifacts) -> ofType artifacts name = None).
Proof.
  intros artifacts name Hundef.
  rewrite (ofType_get _ _ Hundef).
  split; [|split].
  - intros V H. split; [assumption | apply get_Some; assumption].
  - apply get_key.
  - apply get_None.
Qed.

Lemma ofType_lookup_witness :
  ofType sample_artifacts (js "Photo") = Some Photo /\
  ofType sample_artifacts (js "photo") = None.
Proof.
  split.
  - refine (proj1 (proj1 (ofType_lookup sample_artifacts (js "Photo") _) Photo _)).
    + vm_compute. reflexivity.
    + vm_compute. reflexivity.
  - refine (proj2 (proj2 (ofType_lookup sample_artifacts (js "photo") _)) _).
    + vm_compute. reflexivity.
    + vm_compute. intros H. decompose [or] H; try discriminate; assumption.
Defined.

Lemma well_formed_base64_body n :
  forall s, (length s <= n)%nat -> s <> [] -> well_formed_base64 s = true ->
    exists body c d k,
      s = body ++ [c; d] /\ length body = (4 * k + 2)%nat /\
      Forall (fun x => is_base64_char x = true) body /\
      (is_base64_char c && (is_base64_char d || is_pad d)) || (is_pad c && is_pad d)
      = true.
Proof.
  induction n as [|n IH]; intros s Hlen Hne Hwf.
  - destruct s; [congruence | simpl in Hlen; lia].
  - destruct s as [|a [|b [|c [|d [|e rest]]]]]; try congruence; try discriminate.
    + unfold well_formed_base64, final_quartet in Hwf.
      apply andb_true_iff in Hwf as [Hab Htail].
      apply andb_true_iff in Hab as [Ha Hb].
      exists [a; b], c, d, O.
      split; [reflexivity|]. split; [reflexivity|].
      split; [repeat constructor; assumption | assumption].
    + rewrite well_formed_base64_cons4 in Hwf.
      apply andb_true_iff in Hwf as [Hwf Hrest].
      apply andb_true_iff in Hwf as [Hwf Hd].
      apply andb_true_iff in Hwf as [Hwf Hc].
      apply andb_true_iff in Hwf as [Ha Hb].
      destruct (IH (e :: rest)) as (body & c' & d' & k & E & Hk & Hbody & Htail);
        [simpl in *; lia | discriminate | assumption |].
      exists (a :: b :: c :: d :: body), c', d', (S k).
      rewrite E. split; [reflexivity|].
      split; [simpl; lia|].
      split; [repeat constructor; assumption | assumption].
Qed.

Lemma body_well_formed_base64 k :
  forall body c d,
    length body = (4 * k + 2)%nat ->
    Forall (fun x => is_base64_char x = true) body ->
    (is_base64_char c && (is_base64_char d || is_pad d)) || (is_pad c && is_pad d)
    = true ->
    well_formed_base64 (body ++ [c; d]) = true.
Proof.
  induction k as [|k IH]; intros body c d Hlen Hbody Htail.
  - destruct body as [|a [|b [|x rest]]]; simpl in Hlen; try lia.
    inversion Hbody as [|? ? Ha Hb']; subst. inversion Hb' as [|? ? Hb _]; subst.
    simpl. unfold final_quartet. rewrite Ha, Hb, Htail. reflexivity.
  - destruct body as [|a [|b [|c' [|d' body']]]]; simpl in Hlen; try lia.
    inversion Hbody as [|? ? Ha H1]; subst. inversion H1 as [|? ? Hb H2]; subst.
    inversion H2 as [|? ? Hc H3]; subst. inversion H3 as [|? ? Hd H4]; subst.
    assert (Hrest : well_formed_base64 (body' ++ [c; d]) = true)
      by (apply IH; [lia | assumption | assumption]).
    destruct body' as [|e rest]; [simpl in Hlen; lia|].
    simpl app in *. rewrite well_formed_base64_cons4, Ha, Hb, Hc, Hd, Hrest.
    reflexivity.
Qed.

(** X8.  The validation regex accepts exactly the strings made of
    [4k + 2] characters of the base64 alphabet followed by two more, which
    are two of the alphabet, one of the alphabet and [=], or [==]: the
    length is a positive multiple of four and padding stands only at the
    very end. *)
Theorem looksLikeBase64Encoded_shape :
  forall s : jsstring,
    check looksLikeBase64Encoded s = true <->
    exists body c d k,
      s = body ++ [c; d] /\ length body = (4 * k + 2)%nat /\
      Forall (fun x => is_base64_char x = true) body /\
      (is_base64_char c && (is_base64_char d || is_pad d)) || (is_pad c && is_pad d)
      = true.
Proof.
  intros s. rewrite looksLikeBase64Encoded_spec. split.
  - intros [Hne Hwf]. apply (well_formed_base64_body (length s)); auto.
  - intros (body & c & d & k & -> & Hk & Hbody & Htail). split.
    + destruct body; discriminate.
    + apply (body_well_formed_base64 k); assumption.
Qed.

(** X9.  An artifact [fromJSON] returns holds the envelope's value
    unchanged, that value passed the base64 validation, and its class is
    one the module object exports, the one [ofType] finds for the
    envelope's type. *)
Theorem fromJSON_returns_validated_export :
  forall (artifacts : ModuleObject) (o : SerialisedArtifact) (a : Artifact.t),
    fromJSON artifacts o = Returns a ->
    base64EncodedValue a = Serialised.base64EncodedValue o /\
    check looksLikeBase64Encoded (base64EncodedValue a) = true /\
    ofType artifacts (Serialised.type o) = Some (constructor a) /\
    (exists key, In (key, constructor a) artifacts).
Proof.
  intros artifacts o a H. unfold fromJSON in H.
  destruct (ofType artifacts (Serialised.type o)) as [V|] eqn:Etype; [|discriminate].
  rewrite new_checks in H.
  destruct (check looksLikeBase64Encoded _) eqn:Echeck; [|discriminate].
  injection H as <-. simpl.
  split; [reflexivity|]. split; [assumption|]. split; [reflexivity|].
  unfold ofType in Etype. apply get_Some in Etype. eauto.
Qed.

Lemma fromJSON_returns_validated_export_witness :
  base64EncodedValue (mkArtifact Photo (js "iVBORw0K")) = js "iVBORw0K" /\
  check looksLikeBase64Encoded (js "iVBORw0K") = true /\
  ofType sample_artifacts (js "Photo") = Some Photo /\
  (exists key, In (key, Photo) sample_artifacts).
Proof.
  apply (fromJSON_returns_validated_export sample_artifacts
           (Serialised.mk (js "Photo") (js "iVBORw0K"))
           (mkArtifact Photo (js "iVBORw0K"))).
  vm_compute. reflexivity.
Defined.

(** X10.  When every class is exported under its own constructor name and
    nothing is exported as [undefined], serialising what [fromJSON]
    returned gives back the envelope. *)
Theorem toJSON_fromJSON_roundtrip :
  forall (artifacts : ModuleObject) (o : SerialisedArtifact) (a : Artifact.t),
    (forall key V, In (key, V) artifacts -> name V = key) ->
    get artifacts (js "undefined") = None ->
    fromJSON artifacts o = Returns a ->
    toJSON a = o.
Proof.
  intros artifacts o a Hnames Hundef H. unfold fromJSON in H.
  destruct (ofType artifacts (Serialised.type o)) as [V|] eqn:Etype; [|discriminate].
  rewrite new_checks in H.
  destruct (check looksLikeBase64Encoded _); [|discriminate].
  injection H as <-.
  rewrite (ofType_get _ _ Hundef) in Etype.
  apply get_Some, Hnames in Etype.
  unfold toJSON; simpl. rewrite Etype. destruct o; reflexivity.
Qed.

Lemma toJSON_fromJSON_roundtrip_witness :
  toJSON (mkArtifact Photo (js "iVBORw0K")) = Serialised.mk (js "Photo") (js "iVBORw0K").
Proof.
  apply (toJSON_fromJSON_roundtrip sample_artifacts).
  - intros key V H. vm_compute in H.
    decompose [or] H; try contradiction;
      match goal with E : (_, _) = (_, _) |- _ => injection E as <- <- end;
      reflexivity.
  - vm_compute. reflexivity.
  - vm_compute. reflexivity.
Defined.

Lemma new_of_value_cases V value :
  new_of_value V value =
  match value with
  | JSUndefined | JSNull => Throws (EnsureFailure (name V) (js "be defined"))
  | JSOther _ => Throws (EnsureFailure (name V) (js "be a string"))
  | JSString s => new V s
  end.
Proof.
  destruct value as [| |s|other]; try reflexivity.
  rewrite new_checks.
  change (check looksLikeBase64Encoded s) with (test regex s).
  unfold new_of_value.
  cbn [ensure_value holds_of expectation_of isDefined_of_value isString_of_value
       looksLikeBase64Encoded_of_value ToString].
  destruct (test regex s); reflexivity.
Qed.

(** X11.  For an envelope whose [base64EncodedValue] may be any value,
    [fromJSON] throws the validation error exactly when the type resolves
    to a class and the value fails a guard of the constructor; the error
    names that class's constructor and the first guard that fails: "be
    defined" for [undefined] and [null], "be a string" for any other
    value that is no string, whatever its string form, and "be
    base64-encoded" for a string the regex refuses.  On a string it is
    the [fromJSON] of the typed envelope. *)
Theorem fromJSON_validation_failure :
  forall (artifacts : ModuleObject) (type : jsstring) (value : JSValue)
         (subject expectation : jsstring),
    (forall s, fromJSON_of_value artifacts type (JSString s)
               = fromJSON artifacts (Serialised.mk type s)) /\
    (fromJSON_of_value artifacts type value
     = Throws (EnsureFailure subject expectation) <->
     exists V,
       ofType artifacts type = Some V /\ subject = name V /\
       (((value = JSUndefined \/ value = JSNull) /\ expectation = js "be defined") \/
        ((exists string_form, value = JSOther string_form)
         /\ expectation = js "be a string") \/
        ((exists s, value = JSString s /\ check looksLikeBase64Encoded s = false)
         /\ expectation = js "be base64-encoded"))).
Proof.
  intros artifacts type value subject expectation.
  unfold fromJSON_of_value, fromJSON;
    cbn [Serialised.type Serialised.base64EncodedValue].
  split.
  - intros s. destruct (ofType artifacts type); [|reflexivity].
    apply new_of_value_cases.
  - destruct (ofType artifacts type) as [V|].
    2:{ split; [discriminate|]. intros (V & E & _). discriminate. }
    rewrite new_of_value_cases. split.
    + intros H. exists V. split; [reflexivity|].
      destruct value as [| |s|other].
      * injection H as <- <-. auto.
      * injection H as <- <-. auto.
      * rewrite new_checks in H.
        destruct (check looksLikeBase64Encoded s) eqn:E; [discriminate|].
        injection H as <- <-. split; [reflexivity|].
        right; right. eauto.
      * injection H as <- <-. split; [reflexivity|].
        right; left. eauto.
    + intros (V' & [= <-] & -> & [[[-> | ->] ->] | [[[other ->] ->] | [(s & -> & E) ->]]]).
      * reflexivity.
      * reflexivity.
      * reflexivity.
      * rewrite new_checks, E. reflexivity.
Qed.

(** X12.  For a name that is no key of the module object, [ofType] reads
    the property called [undefined]: the answer is the same for every such
    name, and [fromJSON] builds an instance of whatever class is exported
    under that key. *)
Theorem ofType_unknown_name_reads_undefined :
  forall (artifacts : ModuleObject) (name : jsstring),
    ~ In name (keys artifacts) ->
    ofType artifacts name = get artifacts (js "undefined") /\
    (forall V value,
       get artifacts (js "undefined") = Some V ->
       fromJSON artifacts (Serialised.mk name value) = new V value).
Proof.
  intros artifacts name Hnot.
  assert (E : ofType artifacts name = get artifacts (js "undefined")).
  { unfold ofType. rewrite find_key_None by assumption. reflexivity. }
  split; [exact E|].
  intros V value HV. unfold fromJSON; simpl. rewrite E, HV. reflexivity.
Qed.

Lemma ofType_unknown_name_reads_undefined_witness :
  ofType [(js "undefined", Photo)] (js "Video") = Some Photo /\
  ofType sample_artifacts (js "constructor") = None.
Proof.
  split.
  - refine (eq_trans (proj1 (ofType_unknown_name_reads_undefined
                               [(js "undefined", Photo)] (js "Video") _)) _).
    + vm_compute. intros H. decompose [or] H; try discriminate; assumption.
    + vm_compute. reflexivity.
  - refine (eq_trans (proj1 (ofType_unknown_name_reads_undefined
                               sample_artifacts (js "constructor") _)) _).
    + vm_compute. intros H. decompose [or] H; try discriminate; assumption.
    + vm_compute. reflexivity.
Defined.

End ArtifactSpec.

(** ** CallAnApi: requests, the cached response and the defaults *)
Module CallAnApiSpec.
Import JS RegExpFacts CallAnApi.

(** X7.  [/Network Error/] accepts exactly the messages that contain
    the words "Network Error", in this case, anywhere. *)
Lemma test_network_error s :
  test network_error s = true <->
  exists before after, s = before ++ js "Network Error" ++ after.
Proof.
  unfold network_error. rewrite test_unanchored. split.
  - intros (before & m & after & -> & H). apply lang_Lit in H as ->. eauto.
  - intros (before & after & ->).
    exists before, (js "Network Error"), after.
    split; [reflexivity | apply lang_Lit; reflexivity].
Qed.

Lemma in_Dot c :
  in_class [(10, 10); (13, 13); (8232, 8233)] true c = negb (is_line_terminator c).
Proof.
  unfold in_class, in_ranges, is_line_terminator; simpl.
  rewrite !single_range.
  destruct (N.eqb_spec c 10), (N.eqb_spec c 13),
    (N.leb_spec 8232 c), (N.leb_spec c 8233),
    (N.eqb_spec c 8232), (N.eqb_spec c 8233);
    simpl; try reflexivity; lia.
Qed.

(** X6.  [/timeout.*exceeded/] accepts exactly the messages in which
    "timeout" is followed by "exceeded" with no line terminator (LF, CR,
    U+2028, U+2029) between the two; what stands before and after is
    free. *)
Lemma test_timeout_exceeded s :
  test timeout_exceeded s = true <->
  exists before between after,
    s = before ++ js "timeout" ++ between ++ js "exceeded" ++ after /\
    Forall (fun c => is_line_terminator c = false) between.
Proof.
  unfold timeout_exceeded. rewrite test_unanchored. split.
  - intros (before & m & after & -> & H).
    apply lang_seq_inv in H as (t & m' & -> & Ht & H).
    apply lang_seq_inv in H as (between & e & -> & Hb & He).
    apply lang_Lit in Ht as ->. apply lang_Lit in He as ->.
    apply lang_star_class in Hb.
    exists before, between, after. split.
    + rewrite <- !app_assoc. reflexivity.
    + eapply Forall_impl; [exact Hb|]. intros c Hc. cbv beta in Hc.
      rewrite in_Dot in Hc. destruct (is_line_terminator c); [discriminate | reflexivity].
  - intros (before & between & after & -> & Hb).
    exists before, (js "timeout" ++ between ++ js "exceeded"), after. split.
    + rewrite <- !app_assoc. reflexivity.
    + constructor; [apply lang_Lit; reflexivity|].
      constructor; [|apply lang_Lit; reflexivity].
      apply lang_star_class.
      eapply Forall_impl; [exact Hb|]. intros c Hc. cbv beta.
      rewrite in_Dot, Hc. reflexivity.
Qed.

Lemma request_unfold config this w :
  request config this w =
  ((captureResponseOf (transport_answer this w config) this).1,
   (captureResponseOf (transport_answer this w config) this).2,
   mkWorld (instances w) (fresh w) (axios_defaults w) (axios_adapter w)
           (sent w ++ [(axiosInstance this, effective_request this w config)])).
Proof.
  unfold request, axios_request, transport_answer, effective_request.
  destruct (captureResponseOf _ this). reflexivity.
Qed.

(** C1.  A rejection of the transport is mapped, in this order of
    priority, to exactly one outcome: a message matching
    [/timeout.*exceeded/] rejects with a [TestCompromisedError]; else a
    message matching [/Network Error/] rejects with a
    [TestCompromisedError]; else a [TypeError] rejects with a
    [LogicError]; else a rejection without a response rejects with a
    [TestCompromisedError].  The request rejects in these four cases and
    in no other; in each of them the ability, and so its [lastResponse],
    is left as it was, and the transport was called once. *)
Theorem request_classifies_rejection :
  forall (config : AxiosRequestConfig) (this : CallAnApi.t) (w : World)
         (rejected : Rejection),
    transport_answer this w config = Rejected rejected ->
    let outcome := request config this w in
    (test timeout_exceeded (message rejected) = true ->
       outcome.1.1
       = Rejected (TestCompromisedError (js "The request has timed out") (Some rejected))
       /\ outcome.1.2 = this) /\
    (test timeout_exceeded (message rejected) = false ->
     test network_error (message rejected) = true ->
       outcome.1.1
       = Rejected (TestCompromisedError (js "A network error has occurred") (Some rejected))
       /\ outcome.1.2 = this) /\
    (test timeout_exceeded (message rejected) = false ->
     test network_error (message rejected) = false ->
     instanceof_TypeError rejected = true ->
       outcome.1.1
       = Rejected (LogicError (js "Looks like there was an issue with Axios configuration")
                              (Some rejected))
       /\ outcome.1.2 = this) /\
    (test timeout_exceeded (message rejected) = false ->
     test network_error (message rejected) = false ->
     instanceof_TypeError rejected = false ->
     response rejected = None ->
       outcome.1.1
       = Rejected (TestCompromisedError (js "The API call has failed") (Some rejected))
       /\ outcome.1.2 = this) /\
    ((exists reason, outcome.1.1 = Rejected reason) <->
     (test timeout_exceeded (message rejected) = true \/
      test network_error (message rejected) = true \/
      instanceof_TypeError rejected = true \/
      response rejected = None)) /\
    (forall reason, outcome.1.1 = Rejected reason ->
       lastResponse outcome.1.2 = lastResponse this) /\
    sent outcome.2 = sent w ++ [(axiosInstance this, effective_request this w config)].
Proof.
  intros config this w rejected Hanswer outcome. subst outcome.
  rewrite request_unfold, Hanswer. cbn [fst snd sent captureResponseOf].
  split; [intros ->; auto|].
  split; [intros -> ->; auto|].
  split; [intros -> -> ->; auto|].
  split; [intros -> -> -> ->; auto|].
  split; [|split; [|reflexivity]].
  - destruct (test timeout_exceeded _); [split; eauto|].
    destruct (test network_error _); [split; eauto|].
    destruct (instanceof_TypeError _); [split; eauto|].
    destruct (response rejected) as [carried|]; [|split; eauto 6].
    split; [intros [reason [=]]|].
    intros [H | [H | [H | H]]]; discriminate.
  - intros reason.
    destruct (test timeout_exceeded _); [reflexivity|].
    destruct (test network_error _); [reflexivity|].
    destruct (instanceof_TypeError _); [reflexivity|].
    destruct (response rejected); [discriminate | reflexivity].
Qed.

Lemma request_classifies_rejection_witness :
  (request empty_config (new O) (sample_world (Rejected timed_out))).1.1
  = Rejected (TestCompromisedError (js "The request has timed out") (Some timed_out)) /\
  (request empty_config (new O) (sample_world (Rejected unreachable))).1.1
  = Rejected (TestCompromisedError (js "A network error has occurred") (Some unreachable)) /\
  (request empty_config (new O) (sample_world (Rejected misconfigured))).1.1
  = Rejected (LogicError (js "Looks like there was an issue with Axios configuration")
                         (Some misconfigured)) /\
  (request empty_config (new O) (sample_world (Rejected refused))).1.1
  = Rejected (TestCompromisedError (js "The API call has failed") (Some refused)).
Proof.
  split; [|split; [|split]].
  - refine (proj1 (proj1 (request_classifies_rejection empty_config (new O)
                            (sample_world (Rejected timed_out)) timed_out eq_refl) _)).
    vm_compute. reflexivity.
  - refine (proj1 (proj1 (proj2 (request_classifies_rejection empty_config (new O)
                            (sample_world (Rejected unreachable)) unreachable eq_refl)) _ _)).
    + vm_compute. reflexivity.
    + vm_compute. reflexivity.
  - refine (proj1 (proj1 (proj2 (proj2 (request_classifies_rejection empty_config (new O)
                            (sample_world (Rejected misconfigured)) misconfigured eq_refl)))
                     _ _ _)).
    + vm_compute. reflexivity.
    + vm_compute. reflexivity.
    + reflexivity.
  - refine (proj1 (proj1 (proj2 (proj2 (proj2
              (request_classifies_rejection empty_config (new O)
                 (sample_world (Rejected refused)) refused eq_refl))))
                     _ _ _ _)).
    + vm_compute. reflexivity.
    + vm_compute. reflexivity.
    + reflexivity.
    + reflexivity.
Defined.

(** C2, as stated, fails for a rejection that carries a response and
    whose message matches [/timeout.*exceeded/]: the request rejects and
    nothing is stored. *)
Lemma request_rejects_timeout_carrying_response :
  response timed_out_with_504 = Some gateway_timeout /\
  (request empty_config (new O) (sample_world (Rejected timed_out_with_504))).1.1
  = Rejected (TestCompromisedError (js "The request has timed out")
                                   (Some timed_out_with_504)) /\
  lastResponse
    (request empty_config (new O) (sample_world (Rejected timed_out_with_504))).1.2
  = None.
Proof. repeat split; vm_compute; reflexivity. Qed.

(** C2, amended.  For every rejection of the transport that carries a
    response, whose message matches neither [/timeout.*exceeded/] nor
    [/Network Error/] and which is not a [TypeError], [request] resolves
    with that response and stores it as [lastResponse], and a subsequent
    [mapLastResponse(r => r.status)] returns that response's status. *)
Theorem request_resolves_rejection_with_response :
  forall (config : AxiosRequestConfig) (this : CallAnApi.t) (w : World)
         (rejected : Rejection) (carried : AxiosResponse),
    transport_answer this w config = Rejected rejected ->
    response rejected = Some carried ->
    test timeout_exceeded (message rejected) = false ->
    test network_error (message rejected) = false ->
    instanceof_TypeError rejected = false ->
    let outcome := request config this w in
    outcome.1.1 = Fulfilled carried /\
    lastResponse outcome.1.2 = Some carried /\
    axiosInstance outcome.1.2 = axiosInstance this /\
    mapLastResponse status outcome.1.2 outcome.2
    = (Returns (status carried), outcome.1.2, outcome.2).
Proof.
  intros config this w rejected carried Hanswer Hresp Ht Hn Hty outcome.
  subst outcome.
  rewrite request_unfold, Hanswer. cbn [fst snd captureResponseOf].
  rewrite Ht, Hn, Hty, Hresp. auto.
Qed.

Lemma request_resolves_rejection_with_response_witness :
  (request empty_config (new O) (sample_world (Rejected failed_with_404))).1.1
  = Fulfilled not_found /\
  (mapLastResponse status
     (request empty_config (new O) (sample_world (Rejected failed_with_404))).1.2
     (request empty_config (new O) (sample_world (Rejected failed_with_404))).2).1.1
  = Returns 404.
Proof.
  pose proof (request_resolves_rejection_with_response empty_config (new O)
                (sample_world (Rejected failed_with_404)) failed_with_404 not_found
                eq_refl eq_refl) as H.
  cbv zeta in H.
  destruct H as (H1 & _ & _ & H4);
    [vm_compute; reflexivity | vm_compute; reflexivity | reflexivity |].
  split; [exact H1|].
  rewrite H4. reflexivity.
Defined.

Lemma store_same r i m : store r i m r = i.
Proof. unfold store. rewrite Nat.eqb_refl. reflexivity. Qed.

Lemma store_other r i m r' : r' <> r -> store r i m r' = m r'.
Proof.
  intros H. unfold store.
  destruct (Nat.eqb_spec r' r); [contradiction | reflexivity].
Qed.

(** C6.  However the ability was built, [mapLastResponse(fn)] throws a
    [LogicError] as long as no response has been stored; once one is
    stored it returns [fn] of that response.  Either way the ability and
    the world, the list of requests sent included, stay as they were. *)
Theorem mapLastResponse_reads_the_cache :
  forall (T : Type) (fn : AxiosResponse -> T) (w : World),
    (forall baseURL,
       mapLastResponse fn (at_ baseURL w).1 (at_ baseURL w).2
       = (Throws (LogicError
            (js "Make sure to perform a HTTP API call before checking on the response")
            None),
          (at_ baseURL w).1, (at_ baseURL w).2)) /\
    (forall axiosInstance,
       mapLastResponse fn (using_ axiosInstance w).1 (using_ axiosInstance w).2
       = (Throws (LogicError
            (js "Make sure to perform a HTTP API call before checking on the response")
            None),
          (using_ axiosInstance w).1, (using_ axiosInstance w).2)) /\
    (forall this change,
       lastResponse this = None ->
       mapLastResponse fn this (modifyConfig change this w)
       = (Throws (LogicError
            (js "Make sure to perform a HTTP API call before checking on the response")
            None),
          this, modifyConfig change this w)) /\
    (forall this stored,
       lastResponse this = Some stored ->
       mapLastResponse fn this w = (Returns (fn stored), this, w)).
Proof.
  intros T fn w. split; [|split; [|split]].
  - intros baseURL. reflexivity.
  - intros axiosInstance. reflexivity.
  - intros this change H. unfold mapLastResponse. rewrite H. reflexivity.
  - intros this stored H. unfold mapLastResponse. rewrite H. reflexivity.
Qed.

(** C7.  [at(baseURL)] returns a new ability over a new transport whose
    defaults are that base URL, a timeout of 2000 ms and the header
    [Accept: application/json,application/xml], and a request sent as
    [{}] carries them; [using(transport)] wraps the transport it is
    given and changes nothing. *)
Theorem at_configures_using_wraps :
  forall (base : jsstring) (w : World),
    let this := (at_ base w).1 in
    let w' := (at_ base w).2 in
    let d := defaults (instances w' (axiosInstance this)) in
    (axiosInstance this = fresh w /\ lastResponse this = None /\
     (forall r, r <> fresh w -> instances w' r = instances w r)) /\
    (baseURL d = Some base /\ timeout d = Some 2000 /\
     headers d !! js "Accept" = Some (js "application/json,application/xml")) /\
    (baseURL (effective_request this w' empty_config) = Some base /\
     timeout (effective_request this w' empty_config) = Some 2000 /\
     headers (effective_request this w' empty_config) !! js "Accept"
     = Some (js "application/json,application/xml")) /\
    (forall axiosInstance,
       using_ axiosInstance w = (mkCallAnApi axiosInstance None, w)).
Proof.
  intros base w this w' d. subst this w' d.
  unfold effective_request, at_, axios_create; cbn [fst snd axiosInstance new instances].
  rewrite store_same. cbn [defaults mergeConfig baseURL timeout headers or_else empty_config].
  split; [|split; [|split]].
  - split; [reflexivity|]. split; [reflexivity|].
    intros r Hr. apply store_other. assumption.
  - split; [reflexivity|]. split; [reflexivity|].
    apply lookup_union_Some_l, lookup_singleton_eq.
  - split; [reflexivity|]. split; [reflexivity|].
    rewrite (left_id_L ∅ (∪)).
    apply lookup_union_Some_l, lookup_singleton_eq.
  - intros axiosInstance. reflexivity.
Qed.

(** C8.  [modifyConfig(fn)] replaces the defaults of the ability's
    transport, in place, by what [fn] makes of them, and touches nothing
    else; every later request through that transport is the request
    merged over the new defaults, and requests leave the defaults alone.
    After [modifyConfig(cfg => cfg.headers['X'] = 'v')], [request({})]
    sends a request with header [X: v]. *)
Theorem modifyConfig_changes_later_requests :
  forall (fn : AxiosRequestConfig -> AxiosRequestConfig) (this : CallAnApi.t)
         (w : World),
    let w1 := modifyConfig fn this w in
    (defaults (instances w1 (axiosInstance this))
     = fn (defaults (instances w (axiosInstance this))) /\
     adapter (instances w1 (axiosInstance this))
     = adapter (instances w (axiosInstance this)) /\
     (forall r, r <> axiosInstance this -> instances w1 r = instances w r) /\
     sent w1 = sent w) /\
    (forall (config : AxiosRequestConfig) (that : CallAnApi.t),
       axiosInstance that = axiosInstance this ->
       sent (request config that w1).2
       = sent w ++ [(axiosInstance this,
                     mergeConfig (fn (defaults (instances w (axiosInstance this)))) config)]
       /\ instances (request config that w1).2 = instances w1) /\
    (forall (X v : jsstring),
       fn = set_header X v ->
       exists effective,
         sent (request empty_config this w1).2 = sent w ++ [(axiosInstance this, effective)]
         /\ headers effective !! X = Some v).
Proof.
  intros fn this w w1. subst w1.
  split; [|split].
  - unfold modifyConfig; cbn [instances sent].
    rewrite store_same. cbn [defaults adapter].
    repeat split. intros r Hr. apply store_other. assumption.
  - intros config that Hthat.
    rewrite request_unfold. cbn [snd sent instances].
    unfold effective_request. rewrite Hthat.
    unfold modifyConfig; cbn [instances sent].
    rewrite store_same. split; reflexivity.
  - intros X v ->.
    rewrite request_unfold. cbn [snd sent].
    eexists. split.
    + unfold modifyConfig at 1; cbn [sent]. reflexivity.
    + unfold effective_request, modifyConfig; cbn [instances].
      rewrite store_same.
      cbn [defaults mergeConfig headers set_header empty_config].
      rewrite (left_id_L ∅ (∪)). apply lookup_insert_eq.
Qed.

Lemma modifyConfig_changes_later_requests_witness :
  exists effective,
    sent (request empty_config (new O)
            (modifyConfig (set_header (js "X") (js "v")) (new O)
               (sample_world (Fulfilled not_found)))).2
    = [(O, effective)]
    /\ headers effective !! js "X" = Some (js "v").
Proof.
  exact (proj2 (proj2 (modifyConfig_changes_later_requests
                         (set_header (js "X") (js "v")) (new O)
                         (sample_world (Fulfilled not_found))))
               (js "X") (js "v") eq_refl).
Defined.

(** What a request leaves alone: the transports and their defaults, the
    ability's transport; what it does: one transport call, and the slot is
    replaced exactly when the promise resolves. *)
Lemma request_frame config this w :
  lastResponse (request config this w).1.2
  = match (request config this w).1.1 with
    | Fulfilled response => Some response
    | Rejected _ => lastResponse this
    end /\
  axiosInstance (request config this w).1.2 = axiosInstance this /\
  instances (request config this w).2 = instances w /\
  fresh (request config this w).2 = fresh w /\
  sent (request config this w).2
  = sent w ++ [(axiosInstance this, effective_request this w config)].
Proof.
  rewrite request_unfold. cbn [fst snd instances fresh sent].
  unfold captureResponseOf.
  destruct (transport_answer this w config) as [fulfilled | rejected];
    [repeat split|].
  destruct (test timeout_exceeded _); [repeat split|].
  destruct (test network_error _); [repeat split|].
  destruct (instanceof_TypeError _); [repeat split|].
  destruct (response rejected); repeat split.
Qed.

(** X1.  When the transport fulfils a request, [request] resolves with
    that response and caches it: [mapLastResponse(fn)] then returns [fn]
    of it, whatever was cached before. *)
Theorem request_fulfilled_is_cached :
  forall (config : AxiosRequestConfig) (this : CallAnApi.t) (w : World)
         (fulfilled : AxiosResponse),
    transport_answer this w config = Fulfilled fulfilled ->
    let outcome := request config this w in
    outcome.1.1 = Fulfilled fulfilled /\
    lastResponse outcome.1.2 = Some fulfilled /\
    (forall (T : Type) (fn : AxiosResponse -> T),
       mapLastResponse fn outcome.1.2 outcome.2
       = (Returns (fn fulfilled), outcome.1.2, outcome.2)).
Proof.
  intros config this w fulfilled Hanswer outcome. subst outcome.
  rewrite request_unfold, Hanswer. cbn [fst snd captureResponseOf].
  auto.
Qed.

Lemma request_fulfilled_is_cached_witness :
  (request (get_ (js "/users/2")) (new O) routed_world).1.1 = Fulfilled found /\
  (mapLastResponse status
     (request (get_ (js "/users/2")) (new O) routed_world).1.2
     (request (get_ (js "/users/2")) (new O) routed_world).2).1.1
  = Returns 200.
Proof.
  pose proof (request_fulfilled_is_cached (get_ (js "/users/2")) (new O)
                routed_world found eq_refl) as H.
  cbv zeta in H. destruct H as (H1 & _ & H3).
  split; [exact H1|].
  rewrite H3. reflexivity.
Defined.

(** X2.  Requests awaited in turn on one ability: whatever each settles
    to, [lastResponse] ends as the response of the last request that
    resolved (as it was, when none did), the ability keeps its transport,
    and that transport, no other, is called exactly once per request. *)
Theorem request_each_keeps_the_last_resolved :
  forall (configs : list AxiosRequestConfig) (this : CallAnApi.t) (w : World),
    let run := request_each configs this w in
    length run.1.1 = length configs /\
    lastResponse run.1.2 = last_resolved run.1.1 (lastResponse this) /\
    axiosInstance run.1.2 = axiosInstance this /\
    map fst (sent run.2)
    = map fst (sent w) ++ repeat (axiosInstance this) (length configs).
Proof.
  intros configs. induction configs as [|config rest IH]; intros this w run.
  - subst run. simpl. rewrite app_nil_r. auto.
  - subst run. simpl.
    destruct (request_frame config this w) as (Hslot & Hsame & _ & _ & Hsent).
    destruct (request config this w) as [[settled this'] w'] eqn:Ereq.
    cbn [fst snd] in Hslot, Hsame, Hsent.
    specialize (IH this' w'). cbv zeta in IH.
    destruct (request_each rest this' w') as [[outcomes this''] w''].
    cbn [fst snd] in IH |- *.
    destruct IH as (IH1 & IH2 & IH3 & IH4).
    split; [|split; [|split]].
    + simpl. rewrite IH1. reflexivity.
    + rewrite IH2. unfold last_resolved. simpl. rewrite Hslot. reflexivity.
    + congruence.
    + rewrite IH4, Hsent, Hsame, map_app, <- app_assoc. reflexivity.
Qed.

(** X3.  A request that rejects after one that resolved leaves the earlier
    response cached: [mapLastResponse(fn)] still returns [fn] of that
    earlier response, it does not throw. *)
Theorem rejected_request_keeps_earlier_response :
  forall (first second : AxiosRequestConfig) (this : CallAnApi.t) (w : World)
         (earlier : AxiosResponse) (reason : RuntimeError),
    let one := request first this w in
    let two := request second one.1.2 one.2 in
    one.1.1 = Fulfilled earlier ->
    two.1.1 = Rejected reason ->
    forall (T : Type) (fn : AxiosResponse -> T),
      mapLastResponse fn two.1.2 two.2 = (Returns (fn earlier), two.1.2, two.2).
Proof.
  intros first second this w earlier reason one two H1 H2 T fn.
  destruct (request_frame first this w) as (Hslot1 & _).
  destruct (request_frame second one.1.2 one.2) as (Hslot2 & _).
  fold one in Hslot1. fold two in Hslot2.
  rewrite H1 in Hslot1. rewrite H2, Hslot1 in Hslot2.
  unfold mapLastResponse. rewrite Hslot2. reflexivity.
Qed.

Lemma rejected_request_keeps_earlier_response_witness :
  (request (get_ (js "/users/2")) (new O) routed_world).1.1 = Fulfilled found /\
  (request empty_config
     (request (get_ (js "/users/2")) (new O) routed_world).1.2
     (request (get_ (js "/users/2")) (new O) routed_world).2).1.1
  = Rejected (TestCompromisedError (js "The request has timed out") (Some timed_out)) /\
  (mapLastResponse status
     (request empty_config
        (request (get_ (js "/users/2")) (new O) routed_world).1.2
        (request (get_ (js "/users/2")) (new O) routed_world).2).1.2
     (request empty_config
        (request (get_ (js "/users/2")) (new O) routed_world).1.2
        (request (get_ (js "/users/2")) (new O) routed_world).2).2).1.1
  = Returns 200.
Proof.
  assert (H2 : (request empty_config
                  (request (get_ (js "/users/2")) (new O) routed_world).1.2
                  (request (get_ (js "/users/2")) (new O) routed_world).2).1.1
               = Rejected (TestCompromisedError (js "The request has timed out")
                                                (Some timed_out)))
    by (vm_compute; reflexivity).
  split; [reflexivity|]. split; [exact H2|].
  rewrite (rejected_request_keeps_earlier_response (get_ (js "/users/2")) empty_config
             (new O) routed_world found _ eq_refl H2 N status).
  reflexivity.
Defined.

(** X4.  [modifyConfig] calls compose: changing the defaults by [f] and
    then by [g] leaves every transport as one change by [g] after [f]
    does; no request is sent, and later requests are merged over
    [g (f defaults)]. *)
Theorem modifyConfig_composes :
  forall (f g : AxiosRequestConfig -> AxiosRequestConfig) (this : CallAnApi.t)
         (w : World),
    let twice := modifyConfig g this (modifyConfig f this w) in
    let once := modifyConfig (fun cfg => g (f cfg)) this w in
    (forall r, instances twice r = instances once r) /\
    sent twice = sent w /\ fresh twice = fresh w /\
    (forall config,
       effective_request this twice config
       = mergeConfig (g (f (defaults (instances w (axiosInstance this))))) config).
Proof.
  intros f g this w twice once. subst twice once.
  unfold effective_request, modifyConfig; cbn [instances sent fresh].
  split; [|split; [|split]]; try reflexivity.
  - intros r. unfold store.
    destruct (Nat.eqb_spec r (axiosInstance this)) as [-> | Hne].
    + rewrite Nat.eqb_refl. reflexivity.
    + reflexivity.
  - intros config. rewrite !store_same. reflexivity.
Qed.

End CallAnApiSpec.

(** ** ScenarioParameters: what the constructor demands and how
    [fromJSON] treats a missing description *)
Module ScenarioParametersSpec.
Import JS ScenarioParameters.

(** X13.  The constructor returns exactly when [name] and [values] are
    neither [null] nor [undefined]; a missing [name] is reported even when
    [values] is missing too, and [description] is never checked: it is
    stored as given. *)
Theorem new_requires_name_and_values :
  forall (Name Description : Type) (name : Maybe Name)
         (description : DescriptionField Description)
         (values : Maybe (list (jsstring * jsstring))),
    ((exists p, new name description values = Returns p) <->
     (exists n v, name = Defined n /\ values = Defined v)) /\
    (forall p, new name description values = Returns p ->
       name = Defined (ScenarioParameters.name p) /\
       values = Defined (ScenarioParameters.values p) /\
       ScenarioParameters.description p = description) /\
    ((name = Undefined \/ name = Null) ->
       new name description values
       = Throws (EnsureFailure (js "name") (js "be defined"))) /\
    ((exists n, name = Defined n) -> (values = Undefined \/ values = Null) ->
       new name description values
       = Throws (EnsureFailure (js "values") (js "be defined"))).
Proof.
  intros Name Description name description values.
  split; [|split; [|split]].
  - split.
    + intros [p H]. destruct name, values; try discriminate. eauto.
    + intros (n & v & -> & ->). eexists. reflexivity.
  - intros p H. destruct name, values; try discriminate.
    injection H as <-. auto.
  - intros [-> | ->]; reflexivity.
  - intros [n ->] [-> | ->]; reflexivity.
Qed.

(** X14.  When the serialised description is missing, [null] or the empty
    string, [fromJSON] does not depend on [Description.fromJSON] at all,
    and what it returns holds that very value as its description: no
    [Description] is built. *)
Theorem fromJSON_keeps_falsy_description :
  forall (Name Description : Type)
         (Name_fromJSON : Maybe jsstring -> Completion Name)
         (Description_fromJSON Description_fromJSON' : jsstring -> Completion Description)
         (o : Serialised.t),
    falsy (Serialised.description o) = true ->
    fromJSON Name_fromJSON Description_fromJSON o
    = fromJSON Name_fromJSON Description_fromJSON' o /\
    (forall p,
       fromJSON Name_fromJSON Description_fromJSON o = Returns p ->
       description p
       = match Serialised.description o with
         | Undefined => Undefined
         | Null => Null
         | Defined s => Defined (inl s)
         end).
Proof.
  intros Name Description Nf Df Df' o Hfalsy.
  unfold fromJSON.
  destruct (Nf (Serialised.name o)) as [n|e]; [|split; [reflexivity | discriminate]].
  destruct (Serialised.description o) as [| |[|c s]]; try discriminate;
    (split; [reflexivity|]); intros p H; simpl in H;
    destruct (Serialised.values o); try discriminate;
    injection H as <-; reflexivity.
Qed.

Lemma fromJSON_keeps_falsy_description_witness :
  fromJSON sample_Name_fromJSON sample_Description_fromJSON
    (Serialised.mk (Defined (js "Logging in")) (Defined []) (Defined []))
  = fromJSON sample_Name_fromJSON (fun _ => Throws (LogicError []))
      (Serialised.mk (Defined (js "Logging in")) (Defined []) (Defined [])) /\
  fromJSON sample_Name_fromJSON sample_Description_fromJSON
    (Serialised.mk (Defined (js "Logging in")) (Defined []) (Defined []))
  = Returns (mk (js "Logging in") (Defined (inl [])) []).
Proof.
  split; [|reflexivity].
  exact (proj1 (fromJSON_keeps_falsy_description _ _ sample_Name_fromJSON
                  sample_Description_fromJSON (fun _ => Throws (LogicError []))
                  (Serialised.mk (Defined (js "Logging in")) (Defined []) (Defined []))
                  eq_refl)).
Defined.

(** X15.  [fromJSON] fails in the order its arguments are evaluated: what
    [Name.fromJSON] throws comes first, then what [Description.fromJSON]
    throws for a non-empty description, and only then the missing
    [values]; otherwise it returns the three parts, the description built
    by [Description.fromJSON] when the serialised one is not empty. *)
Theorem fromJSON_fails_in_argument_order :
  forall (Name Description : Type)
         (Name_fromJSON : Maybe jsstring -> Completion Name)
         (Description_fromJSON : jsstring -> Completion Description)
         (o : Serialised.t),
    (forall e, Name_fromJSON (Serialised.name o) = Throws e ->
       fromJSON Name_fromJSON Description_fromJSON o = Throws e) /\
    (forall n s e,
       Name_fromJSON (Serialised.name o) = Returns n ->
       Serialised.description o = Defined s -> s <> [] ->
       Description_fromJSON s = Throws e ->
       fromJSON Name_fromJSON Description_fromJSON o = Throws e) /\
    (forall n d,
       Name_fromJSON (Serialised.name o) = Returns n ->
       description_of Description_fromJSON (Serialised.description o) = Returns d ->
       (Serialised.values o = Undefined \/ Serialised.values o = Null) ->
       fromJSON Name_fromJSON Description_fromJSON o
       = Throws (EnsureFailure (js "values") (js "be defined"))) /\
    (forall n d v,
       Name_fromJSON (Serialised.name o) = Returns n ->
       description_of Description_fromJSON (Serialised.description o) = Returns d ->
       Serialised.values o = Defined v ->
       fromJSON Name_fromJSON Description_fromJSON o = Returns (mk n d v)) /\
    (forall n s d v,
       Name_fromJSON (Serialised.name o) = Returns n ->
       Serialised.description o = Defined s -> s <> [] ->
       Description_fromJSON s = Returns d ->
       Serialised.values o = Defined v ->
       fromJSON Name_fromJSON Description_fromJSON o
       = Returns (mk n (Defined (inr d)) v)).
Proof.
  intros Name Description Nf Df o. unfold fromJSON.
  split; [|split; [|split; [|split]]].
  - intros e ->. reflexivity.
  - intros n s e -> -> Hs He.
    destruct s as [|c s]; [congruence|]. simpl. rewrite He. reflexivity.
  - intros n d -> -> [-> | ->]; reflexivity.
  - intros n d v -> -> ->. reflexivity.
  - intros n s d v -> -> Hs Hd ->.
    destruct s as [|c s]; [congruence|]. simpl. rewrite Hd. reflexivity.
Qed.

End ScenarioParametersSpec.
